(** * Helper utilities of the Solana sniper bot

    A shallow embedding of [src/liquidity/liquidity.ts] and
    [src/constants/constants.ts].

    - [JS]        : JavaScript numbers (IEEE 754 binary64), strings, and the
                    conversions [Number] and [parseFloat] with the grammar of
                    numeric strings they implement.
    - [Runtime]   : the process seen from the code: an outside world (ledger,
                    price oracle), a trace of the calls and log lines the code
                    emits, and the monad the asynchronous code runs in.
    - [Liquidity] : [createPoolKeys], [fetchCoinPrice], [getTokenAccounts].
    - [Constants] : the top-level statements of the configuration module.
    - [Scenario]  : one concrete outside world and process environment.

    Definitions come first, the theorems about them follow. *)

From Stdlib Require Import ZArith List String Ascii Bool Lia.
From Stdlib Require Import Floats.SpecFloat.
From stdpp Require Import base gmap strings list.
Import ListNotations.

Local Open Scope string_scope.
Local Open Scope list_scope.

(* ===================================================================== *)
(** * JavaScript values                                                   *)
(* ===================================================================== *)

Module JS.

(** A JavaScript [number] is an IEEE 754 binary64 value. *)
Definition number : Type := spec_float.

Definition prec : Z := 53.
Definition emax : Z := 1024.

Definition NaN : number := S754_nan.
Definition pos_zero : number := S754_zero false.
Definition neg_zero : number := S754_zero true.

(** An integer as a number (exact below 2^53, rounded to nearest above). *)
Definition of_Z (z : Z) : number := binary_normalize prec emax z 0 false.

Definition isNaN (x : number) : bool :=
  match x with S754_nan => true | _ => false end.

(** [x > 0] on numbers: false for NaN and for both zeros. *)
Definition gt_zero (x : number) : bool := SFltb pos_zero x.

(** [v === 0] for a value that is a number or [undefined]: IEEE equality
    with zero on numbers (true for [+0] and [-0], false for NaN), false for
    [undefined]. *)
Definition strict_eq_zero (v : option number) : bool :=
  match v with
  | Some x => SFeqb x pos_zero
  | None => false
  end.

(** ** Strings

    A string is held as its UTF-8 bytes, the form in which the process
    environment hands it over; the code points that matter below are
    recognised on that encoding. *)

Definition chars (s : string) : list ascii := list_ascii_of_string s.

Definition code (c : ascii) : N := N_of_ascii c.

Definition is_digit (c : ascii) : bool :=
  ((48 <=? code c) && (code c <=? 57))%N.

Definition is_hex_digit (c : ascii) : bool :=
  is_digit c
  || ((97 <=? code c) && (code c <=? 102))%N
  || ((65 <=? code c) && (code c <=? 70))%N.

Definition is_octal_digit (c : ascii) : bool :=
  ((48 <=? code c) && (code c <=? 55))%N.

Definition is_binary_digit (c : ascii) : bool :=
  ((48 <=? code c) && (code c <=? 49))%N.

(** Value of a digit in any base up to sixteen. *)
Definition digit_value (c : ascii) : N :=
  if is_digit c then code c - 48
  else if ((97 <=? code c) && (code c <=? 102))%N then code c - 87
  else code c - 55.

Definition digits_value (base : N) (ds : list ascii) : N :=
  fold_left (fun acc c => base * acc + digit_value c)%N ds 0%N.

(** The longest run of characters satisfying [p], and what follows it. *)
Fixpoint span (p : ascii -> bool) (s : list ascii)
  : list ascii * list ascii :=
  match s with
  | c :: s' =>
      if p c then let (run, rest) := span p s' in (c :: run, rest)
      else ([], s)
  | [] => ([], [])
  end.

(** [StrWhiteSpaceChar]: WhiteSpace (TAB, VT, FF, ZWNBSP and the Unicode
    space separators) and LineTerminator (LF, CR, LS, PS), in UTF-8. *)
Definition ws1 (c1 : ascii) : bool :=
  ((9 <=? code c1) && (code c1 <=? 13) || (code c1 =? 32))%N.

Definition ws2 (c1 c2 : ascii) : bool :=
  ((code c1 =? 194) && (code c2 =? 160))%N.                (* U+00A0 *)

Definition ws3 (c1 c2 c3 : ascii) : bool :=
  ((code c1 =? 225) && (code c2 =? 154) && (code c3 =? 128)   (* U+1680 *)
   || (code c1 =? 226) && (code c2 =? 128)
      && ((128 <=? code c3) && (code c3 <=? 138)      (* U+2000..U+200A *)
          || (code c3 =? 168) || (code c3 =? 169)     (* U+2028, U+2029 *)
          || (code c3 =? 175))                        (* U+202F *)
   || (code c1 =? 226) && (code c2 =? 129) && (code c3 =? 159) (* U+205F *)
   || (code c1 =? 227) && (code c2 =? 128) && (code c3 =? 128) (* U+3000 *)
   || (code c1 =? 239) && (code c2 =? 187) && (code c3 =? 191) (* U+FEFF *)
  )%N.

(** [TrimString(s, start)]: drop leading white space. *)
Fixpoint skip_ws (s : list ascii) : list ascii :=
  match s with
  | [] => []
  | c1 :: s1 =>
      if ws1 c1 then skip_ws s1
      else
        match s1 with
        | [] => s
        | c2 :: s2 =>
            if ws2 c1 c2 then skip_ws s2
            else
              match s2 with
              | [] => s
              | c3 :: s3 => if ws3 c1 c2 c3 then skip_ws s3 else s
              end
        end
  end.

Definition is_nil {A} (l : list A) : bool :=
  match l with [] => true | _ => false end.

(** ** Numeric literals in strings *)

(** The mathematical value of a literal, before rounding:
    [(-1)^neg * mant * 10^exp10], or an infinity. *)
Inductive Literal : Type :=
| LInfinity (neg : bool)
| LDecimal (neg : bool) (mant : N) (exp10 : Z).

(** The number value of [(-1)^neg * m * 10^e]: rounded to the nearest
    binary64, ties to even; a zero keeps the sign of the literal. *)
Definition round_mv (neg : bool) (m : N) (e : Z) : number :=
  match m with
  | N0 => S754_zero neg
  | Npos p =>
      if (0 <=? e)%Z then
        binary_normalize prec emax
          (cond_Zopp neg (Zpos p * 10 ^ e))%Z 0 false
      else
        let d := (10 ^ (- e))%Z in
        let s := (55 + Z.log2_up d)%Z in
        let (q, r) := Z.div_eucl (Z.shiftl (Zpos p) s) d in
        binary_round_aux prec emax neg q (- s) (new_location d r)
  end.

Definition literal_value (l : Literal) : number :=
  match l with
  | LInfinity neg => S754_infinity neg
  | LDecimal neg m e => round_mv neg m e
  end.

Definition is_exponent_indicator (c : ascii) : bool :=
  ((code c =? 101) || (code c =? 69))%N.                  (* e, E *)

(** An optional sign: whether it is a minus, and what follows it. *)
Definition parse_sign (s : list ascii) : bool * list ascii :=
  match s with
  | c :: s' =>
      if (code c =? 43)%N then (false, s')                    (* + *)
      else if (code c =? 45)%N then (true, s')                (* - *)
      else (false, s)
  | [] => (false, s)
  end.

(** [ExponentPart], when one is there: its value and what follows it. *)
Definition parse_exponent (s : list ascii) : Z * list ascii :=
  match s with
  | c :: s1 =>
      if is_exponent_indicator c then
        let (neg, s2) := parse_sign s1 in
        let (ds, s3) := span is_digit s2 in
        if is_nil ds then (0%Z, s)
        else (cond_Zopp neg (Z.of_N (digits_value 10 ds)), s3)
      else (0%Z, s)
  | [] => (0%Z, s)
  end.

Definition Infinity_chars : list ascii := chars "Infinity".

Fixpoint strip_prefix (p s : list ascii) : option (list ascii) :=
  match p, s with
  | [], _ => Some s
  | a :: p', b :: s' => if (code a =? code b)%N then strip_prefix p' s' else None
  | _ :: _, [] => None
  end.

(** The longest prefix of [s] that is a [StrUnsignedDecimalLiteral]:
    its value under the sign [neg], and what follows it. *)
Definition parse_unsigned_decimal (neg : bool) (s : list ascii)
  : option (Literal * list ascii) :=
  match strip_prefix Infinity_chars s with
  | Some rest => Some (LInfinity neg, rest)
  | None =>
      let (ip, s1) := span is_digit s in
      match s1 with
      | c :: s2 =>
          if (code c =? 46)%N then                            (* . *)
            let (fp, s3) := span is_digit s2 in
            if is_nil ip && is_nil fp then None
            else
              let (e, s4) := parse_exponent s3 in
              Some (LDecimal neg (digits_value 10 (ip ++ fp))
                      (e - Z.of_nat (length fp)), s4)
          else if is_nil ip then None
          else
            let (e, s4) := parse_exponent s1 in
            Some (LDecimal neg (digits_value 10 ip) e, s4)
      | [] =>
          if is_nil ip then None
          else Some (LDecimal neg (digits_value 10 ip) 0, [])
      end
  end.

(** The longest prefix of [s] that is a [StrDecimalLiteral]. *)
Definition parse_decimal (s : list ascii) : option (Literal * list ascii) :=
  let (neg, s') := parse_sign s in parse_unsigned_decimal neg s'.

(** The base and the digits a radix letter announces. *)
Definition radix_of (c : ascii) : option (N * (ascii -> bool)) :=
  if ((code c =? 120) || (code c =? 88))%N                    (* x X *)
  then Some (16%N, is_hex_digit)
  else if ((code c =? 111) || (code c =? 79))%N               (* o O *)
  then Some (8%N, is_octal_digit)
  else if ((code c =? 98) || (code c =? 66))%N                (* b B *)
  then Some (2%N, is_binary_digit)
  else None.

(** A [NonDecimalIntegerLiteral] at the head of [s]: [0x], [0o] or [0b]
    and at least one digit of that base. *)
Definition parse_non_decimal (s : list ascii)
  : option (Literal * list ascii) :=
  match s with
  | z :: c :: s' =>
      if (code z =? 48)%N then
        match radix_of c with
        | Some (base, is_dig) =>
            let (ds, rest) := span is_dig s' in
            if is_nil ds then None
            else Some (LDecimal false (digits_value base ds) 0, rest)
        | None => None
        end
      else None
  | _ => None
  end.

(** [StringToNumber]: the whole string is white space, or one numeric
    literal with white space around it; anything else is NaN. *)
Definition string_to_number (s : list ascii) : number :=
  let t := skip_ws s in
  if is_nil t then pos_zero
  else
    match parse_non_decimal t with
    | Some (l, rest) =>
        if is_nil (skip_ws rest) then literal_value l else NaN
    | None =>
        match parse_decimal t with
        | Some (l, rest) =>
            if is_nil (skip_ws rest) then literal_value l else NaN
        | None => NaN
        end
    end.

(** [Number(value)] on a string. *)
Definition Number (s : string) : number := string_to_number (chars s).

(** [parseFloat(string)]: the longest decimal literal after the leading
    white space; what follows it is ignored. *)
Definition parseFloat (s : string) : number :=
  match parse_decimal (skip_ws (chars s)) with
  | Some (l, _) => literal_value l
  | None => NaN
  end.

(** ** The grammar of numeric strings

    The productions of ECMAScript's [StringNumericLiteral], as predicates
    on the characters of a string. *)

Definition StrWhiteSpaceChar (w : list ascii) : Prop :=
  match w with
  | [c1] => ws1 c1 = true
  | [c1; c2] => ws2 c1 c2 = true
  | [c1; c2; c3] => ws3 c1 c2 c3 = true
  | _ => False
  end.

Inductive StrWhiteSpace : list ascii -> Prop :=
| SWS_empty : StrWhiteSpace []
| SWS_more (w s : list ascii) :
    StrWhiteSpaceChar w -> StrWhiteSpace s -> StrWhiteSpace (w ++ s).

(** A production that may be left out. *)
Definition optional (P : list ascii -> Prop) (s : list ascii) : Prop :=
  s = [] \/ P s.

(** One or more digits of the class [p]. *)
Definition Digits (p : ascii -> bool) (ds : list ascii) : Prop :=
  ds <> [] /\ List.Forall (fun c => p c = true) ds.

Definition DecimalDigits : list ascii -> Prop := Digits is_digit.

Inductive Sign : list ascii -> Prop :=
| Sign_plus : Sign ["+"%char]
| Sign_minus : Sign ["-"%char].

Inductive ExponentPart : list ascii -> Prop :=
| ExponentPart_intro (c : ascii) (sg ds : list ascii) :
    is_exponent_indicator c = true -> optional Sign sg -> DecimalDigits ds ->
    ExponentPart (c :: sg ++ ds).

Inductive StrUnsignedDecimalLiteral : list ascii -> Prop :=
| SUDL_Infinity : StrUnsignedDecimalLiteral Infinity_chars
| SUDL_int_dot (i f e : list ascii) :
    DecimalDigits i -> optional DecimalDigits f -> optional ExponentPart e ->
    StrUnsignedDecimalLiteral (i ++ "."%char :: f ++ e)
| SUDL_dot_frac (f e : list ascii) :
    DecimalDigits f -> optional ExponentPart e ->
    StrUnsignedDecimalLiteral ("."%char :: f ++ e)
| SUDL_int (i e : list ascii) :
    DecimalDigits i -> optional ExponentPart e ->
    StrUnsignedDecimalLiteral (i ++ e).

Inductive StrDecimalLiteral : list ascii -> Prop :=
| SDL_intro (sg u : list ascii) :
    optional Sign sg -> StrUnsignedDecimalLiteral u ->
    StrDecimalLiteral (sg ++ u).

Inductive NonDecimalIntegerLiteral : list ascii -> Prop :=
| NDIL_hex (x : ascii) (ds : list ascii) :
    x = "x"%char \/ x = "X"%char -> Digits is_hex_digit ds ->
    NonDecimalIntegerLiteral ("0"%char :: x :: ds)
| NDIL_octal (o : ascii) (ds : list ascii) :
    o = "o"%char \/ o = "O"%char -> Digits is_octal_digit ds ->
    NonDecimalIntegerLiteral ("0"%char :: o :: ds)
| NDIL_binary (b : ascii) (ds : list ascii) :
    b = "b"%char \/ b = "B"%char -> Digits is_binary_digit ds ->
    NonDecimalIntegerLiteral ("0"%char :: b :: ds).

Definition StrNumericLiteral (l : list ascii) : Prop :=
  StrDecimalLiteral l \/ NonDecimalIntegerLiteral l.

(** A numeric string, as [Number] understands it: white space, or one
    numeric literal with optional white space on both sides. *)
Definition StringNumericLiteral (s : list ascii) : Prop :=
  exists w1 l w2,
    s = w1 ++ l ++ w2
    /\ StrWhiteSpace w1 /\ optional StrNumericLiteral l /\ StrWhiteSpace w2.

Definition numeric_string (s : string) : Prop :=
  StringNumericLiteral (chars s).

(** What [parseFloat] looks for: a decimal literal at the start of the
    string, after optional white space and before anything at all. *)
Definition starts_with_decimal (s : string) : Prop :=
  exists w p r,
    chars s = w ++ p ++ r /\ StrWhiteSpace w /\ StrDecimalLiteral p.

(** [rest] is empty or begins with a character outside the class [p]. *)
Definition stops (p : ascii -> bool) (rest : list ascii) : Prop :=
  match rest with
  | [] => True
  | c :: _ => p c = false
  end.

(** The characters a numeric literal is made of. *)
Definition lit_char (c : ascii) : bool :=
  is_hex_digit c
  || ((code c =? 46) || (code c =? 43) || (code c =? 45)       (* . + - *)
      || (code c =? 120) || (code c =? 88)                     (* x X *)
      || (code c =? 111) || (code c =? 79)                     (* o O *)
      || (code c =? 73))%N.                                    (* I *)

(** Neither [+] nor [-]. *)
Definition not_a_sign (c : ascii) : Prop :=
  (code c =? 43)%N = false /\ (code c =? 45)%N = false.

(** None of the letters that follow [0] in a non-decimal literal. *)
Definition not_a_radix (c : ascii) : Prop :=
  ((code c =? 120) || (code c =? 88))%N = false
  /\ ((code c =? 111) || (code c =? 79))%N = false
  /\ ((code c =? 98) || (code c =? 66))%N = false.

(** The first byte of a white space character. *)
Definition ws_lead (c : ascii) : bool :=
  ws1 c
  || ((code c =? 194) || (code c =? 225) || (code c =? 226)
      || (code c =? 227) || (code c =? 239))%N.

End JS.

(* ===================================================================== *)
(** * The running process                                                 *)
(* ===================================================================== *)

Module Runtime.
Import JS.

(** Types the SDKs own; the code under study only passes them around. *)
Class SdkTypes : Type := {
  PublicKey : Type;      (* @solana/web3.js PublicKey *)
  BN : Type;             (* bn.js big number *)
  Buffer : Type;         (* raw account bytes *)
  SplAccount : Type;     (* what SPL_ACCOUNT_LAYOUT.decode returns *)
  Connection : Type;     (* @solana/web3.js Connection *)
  Err : Type;            (* a thrown value or a rejection reason *)
  Env : Type;            (* state of the outside world: ledger, oracle *)
}.

(** [Commitment] is a union of string literals in TypeScript. *)
Definition Commitment : Type := string.

(** How an awaited promise settles. *)
Inductive Settled (E A : Type) : Type :=
| Fulfilled (a : A)
| RejectedWith (e : E).
Arguments Fulfilled {E A} a.
Arguments RejectedWith {E A} e.

(** How a call of a synchronous function ends: with a value, or with a
    thrown one. *)
Inductive Called (E A : Type) : Type :=
| Completed (a : A)
| Threw (e : E).
Arguments Completed {E A} a.
Arguments Threw {E A} e.

Section Process.
Context `{SdkTypes}.

(** One argument of a console call. *)
Inductive LogArg : Type :=
| LStr (s : string)
| LErr (e : Err).

(** What the code does to the outside, in program order. *)
Inductive Event : Type :=
| EvLoggerError (fields : list (string * string)) (msg : string)
| EvConsoleLog (args : list LogArg)
| EvConsoleError (args : list LogArg)
| EvGetTokenAccountsByOwner (owner programId : PublicKey)
                            (commitment : option Commitment)
| EvMoralisStart (apiKey : string)
| EvGetTokenPrice (network address : string).

(** A request to the Ledger Query Service. *)
Definition is_ledger_call (ev : Event) : bool :=
  match ev with EvGetTokenAccountsByOwner _ _ _ => true | _ => false end.

(** A request to the Price Oracle. *)
Definition is_oracle_call (ev : Event) : bool :=
  match ev with
  | EvMoralisStart _ | EvGetTokenPrice _ _ => true
  | _ => false
  end.

Definition is_moralis_start (ev : Event) : bool :=
  match ev with EvMoralisStart _ => true | _ => false end.

Definition is_get_token_price (ev : Event) : bool :=
  match ev with EvGetTokenPrice _ _ => true | _ => false end.

Definition is_console_error (ev : Event) : bool :=
  match ev with EvConsoleError _ => true | _ => false end.

Record World : Type := mkWorld {
  env : Env;
  trace : list Event;
}.

Definition emit (ev : Event) (w : World) : World :=
  {| env := env w; trace := trace w ++ [ev] |}.

(** How a piece of code ends: it returns, it throws (an awaited promise that
    rejects throws at the [await]), or [process.exit] ends the process. *)
Inductive Outcome (A : Type) : Type :=
| Returned (a : A)
| Thrown (e : Err)
| Exited (code : Z).
Arguments Returned {A} a.
Arguments Thrown {A} e.
Arguments Exited {A} code.

Definition Proc (A : Type) : Type := World -> Outcome A * World.

Definition ret {A} (a : A) : Proc A := fun w => (Returned a, w).

Definition bind {A B} (m : Proc A) (k : A -> Proc B) : Proc B :=
  fun w =>
    match m w with
    | (Returned a, w') => k a w'
    | (Thrown e, w') => (Thrown e, w')
    | (Exited c, w') => (Exited c, w')
    end.

(** [try { body } catch (e) { handler }]: a [process.exit] is not caught. *)
Definition try_catch {A} (body : Proc A) (handler : Err -> Proc A) : Proc A :=
  fun w =>
    match body w with
    | (Thrown e, w') => handler e w'
    | r => r
    end.

Definition process_exit {A} (code : Z) : Proc A := fun w => (Exited code, w).

Definition log_event (ev : Event) : Proc unit :=
  fun w => (Returned tt, emit ev w).

Definition logger_error (fields : list (string * string)) (msg : string)
  : Proc unit := log_event (EvLoggerError fields msg).
Definition console_log (args : list LogArg) : Proc unit :=
  log_event (EvConsoleLog args).
Definition console_error (args : list LogArg) : Proc unit :=
  log_event (EvConsoleError args).

(** A call of a synchronous SDK function: it leaves the world alone, and
    what it throws is thrown on. *)
Definition call {A} (r : Called Err A) : Proc A :=
  fun w =>
    match r with
    | Completed a => (Returned a, w)
    | Threw e => (Thrown e, w)
    end.

(** [await] of a call to an outside service: the call is recorded, the
    outside world moves on, and a rejection is thrown. *)
Definition await {A} (ev : Event) (call : Env -> Settled Err A * Env)
  : Proc A :=
  fun w =>
    let (r, env') := call (env w) in
    let w' := {| env := env'; trace := trace w ++ [ev] |} in
    match r with
    | Fulfilled a => (Returned a, w')
    | RejectedWith e => (Thrown e, w')
    end.

End Process.

Arguments Returned {_ A} a.
Arguments Thrown {_ A} e.
Arguments Exited {_ A} code.

#[global] Instance proc_ret `{SdkTypes} : MRet Proc := @ret _.
#[global] Instance proc_bind `{SdkTypes} : MBind Proc :=
  fun A B k m => bind m k.

End Runtime.

(* ===================================================================== *)
(** * src/liquidity/liquidity.ts                                          *)
(* ===================================================================== *)

Module Liquidity.
Import JS Runtime.

Section Types.
Context `{SdkTypes}.

(** [LiquidityStateV4]: the decoded pool state, with the fields read here.
    The fields carry the prefix [st_] because [LiquidityPoolKeys] has fields
    of the same names. *)
Record LiquidityStateV4 : Type := {
  st_baseMint : PublicKey;
  st_quoteMint : PublicKey;
  st_lpMint : PublicKey;
  st_baseDecimal : BN;
  st_quoteDecimal : BN;
  st_openOrders : PublicKey;
  st_targetOrders : PublicKey;
  st_baseVault : PublicKey;
  st_quoteVault : PublicKey;
  st_marketProgramId : PublicKey;
  st_marketId : PublicKey;
  st_withdrawQueue : PublicKey;
  st_lpVault : PublicKey;
}.

(** [MinimalMarketLayoutV3], the layout [MINIMAL_MARKET_STATE_LAYOUT_V3]
    decodes: [struct([publicKey('eventQueue'), publicKey('bids'),
    publicKey('asks')])]. *)
Record MinimalMarketLayoutV3 : Type := {
  eventQueue : PublicKey;
  bids : PublicKey;
  asks : PublicKey;
}.

(** What the two [getAssociatedAuthority] functions return. *)
Record AssociatedAuthority : Type := {
  publicKey : PublicKey;
  nonce : number;
}.

(** [LiquidityPoolKeys], field by field as the literal in [createPoolKeys]. *)
Record LiquidityPoolKeys : Type := {
  id : PublicKey;
  baseMint : PublicKey;
  quoteMint : PublicKey;
  lpMint : PublicKey;
  baseDecimals : number;
  quoteDecimals : number;
  lpDecimals : number;
  version : number;
  programId : PublicKey;
  authority : PublicKey;
  openOrders : PublicKey;
  targetOrders : PublicKey;
  baseVault : PublicKey;
  quoteVault : PublicKey;
  marketVersion : number;
  marketProgramId : PublicKey;
  marketId : PublicKey;
  marketAuthority : PublicKey;
  marketBaseVault : PublicKey;
  marketQuoteVault : PublicKey;
  marketBids : PublicKey;
  marketAsks : PublicKey;
  marketEventQueue : PublicKey;
  withdrawQueue : PublicKey;
  lpVault : PublicKey;
  lookupTableAccount : PublicKey;
}.

(** [AccountInfo<Buffer>]: the account of a ledger record, with the fields
    read here. *)
Record AccountInfo : Type := {
  data : Buffer;
  owner : PublicKey;
}.

(** One element of [tokenResp.value]. *)
Record KeyedAccount : Type := {
  ka_pubkey : PublicKey;
  ka_account : AccountInfo;
}.

(** [RpcResponseAndContext]: only [value] is read. *)
Record TokenAccountsResponse : Type := {
  value : list KeyedAccount;
}.

(** [TokenAccountWithAmountAndPrice =
      TokenAccount & { amount: BN; price: number | undefined }]. *)
Record TokenAccountWithAmountAndPrice : Type := {
  pubkey : PublicKey;
  ta_programId : PublicKey;
  accountInfo : SplAccount;
  price : option number;
  amount : BN;
}.

(** [response.raw] of the oracle's answer; [usdPrice] is [None] when the
    field is missing from the answer. *)
Record TokenPriceJSON : Type := {
  usdPrice : option number;
}.

Record TokenPriceResponse : Type := {
  raw : TokenPriceJSON;
}.

End Types.

(** The SDK functions and constants the file imports. A synchronous
    function depends on its arguments only and ends with a value or by
    throwing; an asynchronous one settles depending on the outside world
    and may change it. *)
Class Sdk `{SdkTypes} : Type := {
  (* @solana/web3.js *)
  toBase58 : PublicKey -> string;
  PublicKey_default : PublicKey;
  connection_getTokenAccountsByOwner :
    Connection -> PublicKey -> PublicKey -> option Commitment ->
    Env -> Settled Err TokenAccountsResponse * Env;
  (* bn.js: [toNumber()] throws on a number that does not fit *)
  BN_toNumber : BN -> Called Err number;
  (* @raydium-io/raydium-sdk: a derivation throws when it finds no address,
     the layout throws on account data it cannot read *)
  MAINNET_PROGRAM_ID_AmmV4 : PublicKey;
  MAINNET_PROGRAM_ID_OPENBOOK_MARKET : PublicKey;
  Liquidity_getAssociatedAuthority :
    PublicKey -> Called Err AssociatedAuthority;
  Market_getAssociatedAuthority :
    PublicKey -> PublicKey -> Called Err AssociatedAuthority;
  SPL_ACCOUNT_LAYOUT_decode : Buffer -> Called Err SplAccount;
  spl_mint : SplAccount -> PublicKey;
  spl_amount : SplAccount -> BN;
  (* @solana/spl-token *)
  TOKEN_PROGRAM_ID : PublicKey;
  (* moralis *)
  Moralis_start : string -> Env -> Settled Err unit * Env;
  Moralis_SolApi_token_getTokenPrice :
    string -> string -> Env -> Settled Err TokenPriceResponse * Env;
  (* imported from ../constants; constants.ts does not define it, so its
     value is left open *)
  MORALIS_API_KEY : string;
}.

Section Code.
Context `{Sdk}.

Definition RAYDIUM_LIQUIDITY_PROGRAM_ID_V4 : PublicKey :=
  MAINNET_PROGRAM_ID_AmmV4.
Definition OPENBOOK_PROGRAM_ID : PublicKey :=
  MAINNET_PROGRAM_ID_OPENBOOK_MARKET.

(** [createPoolKeys] awaits nothing, but it runs in the process like the
    rest: it is a [Proc], and that it leaves the world alone is a statement
    to prove. The properties of the literal are evaluated in the order they
    are written, so the calls that can throw come in this order: the two
    [toNumber()], [Liquidity.getAssociatedAuthority],
    [Market.getAssociatedAuthority]. *)
Definition createPoolKeys (id : PublicKey) (accountData : LiquidityStateV4)
    (minimalMarketLayoutV3 : MinimalMarketLayoutV3)
  : Proc LiquidityPoolKeys :=
  baseDecimals ← call (BN_toNumber (st_baseDecimal accountData));
  quoteDecimals ← call (BN_toNumber (st_quoteDecimal accountData));
  liquidityAuthority ←
    call (Liquidity_getAssociatedAuthority RAYDIUM_LIQUIDITY_PROGRAM_ID_V4);
  marketAuthority ←
    call (Market_getAssociatedAuthority
            (st_marketProgramId accountData) (st_marketId accountData));
  mret {|
    id := id;
    baseMint := st_baseMint accountData;
    quoteMint := st_quoteMint accountData;
    lpMint := st_lpMint accountData;
    baseDecimals := baseDecimals;
    quoteDecimals := quoteDecimals;
    lpDecimals := of_Z 5;
    version := of_Z 4;
    programId := RAYDIUM_LIQUIDITY_PROGRAM_ID_V4;
    authority := publicKey liquidityAuthority;
    openOrders := st_openOrders accountData;
    targetOrders := st_targetOrders accountData;
    baseVault := st_baseVault accountData;
    quoteVault := st_quoteVault accountData;
    marketVersion := of_Z 3;
    marketProgramId := st_marketProgramId accountData;
    marketId := st_marketId accountData;
    marketAuthority := publicKey marketAuthority;
    marketBaseVault := st_baseVault accountData;
    marketQuoteVault := st_quoteVault accountData;
    marketBids := bids minimalMarketLayoutV3;
    marketAsks := asks minimalMarketLayoutV3;
    marketEventQueue := eventQueue minimalMarketLayoutV3;
    withdrawQueue := st_withdrawQueue accountData;
    lpVault := st_lpVault accountData;
    lookupTableAccount := PublicKey_default;
  |}.

Definition fetchCoinPrice (mintAddress apiKey : string)
  : Proc (option number) :=
  try_catch
    (console_log [LStr "Fetching real-time coin price:";
                  LStr mintAddress; LStr apiKey];;
     await (EvMoralisStart apiKey) (Moralis_start apiKey);;
     response ← await (EvGetTokenPrice "mainnet" mintAddress)
                  (Moralis_SolApi_token_getTokenPrice "mainnet" mintAddress);
     let price := usdPrice (raw response) in
     if strict_eq_zero price then
       console_log [LStr ("Price of coin " +:+ mintAddress
                          +:+ " is 0, returning undefined")];;
       mret None
     else
       mret price)
    (fun e =>
       console_error [LStr "Fetching real-time coin price:"; LErr e];;
       mret None).

(** The body of [for (const { pubkey, account } of tokenResp.value)], over
    the records still to visit; [accounts] is the array built so far and
    [push] appends to it. The decode of line 81 stands outside any [try]:
    what it throws leaves the loop and the function. *)
Fixpoint for_of_value (records : list KeyedAccount)
    (accounts : list TokenAccountWithAmountAndPrice)
  : Proc (list TokenAccountWithAmountAndPrice) :=
  match records with
  | [] => mret accounts
  | r :: rest =>
      let pubkey := ka_pubkey r in
      let account := ka_account r in
      accountInfo ← call (SPL_ACCOUNT_LAYOUT_decode (data account));
      coinPrice ← fetchCoinPrice (toBase58 (spl_mint accountInfo))
                                 MORALIS_API_KEY;
      for_of_value rest
        (accounts ++ [ {| pubkey := pubkey;
                          ta_programId := owner account;
                          accountInfo := accountInfo;
                          price := coinPrice;
                          amount := spl_amount accountInfo |} ])
  end.

Definition getTokenAccounts (connection : Connection) (owner : PublicKey)
    (commitment : option Commitment)
  : Proc (list TokenAccountWithAmountAndPrice) :=
  tokenResp ← await (EvGetTokenAccountsByOwner owner TOKEN_PROGRAM_ID
                                               commitment)
                (connection_getTokenAccountsByOwner connection owner
                   TOKEN_PROGRAM_ID commitment);
  accounts ← for_of_value (value tokenResp) [];
  mret accounts.

(** ** Vocabulary for the statements about the enrichment *)

(** One lookup at the Price Oracle, as [fetchCoinPrice] performs it:
    [Moralis.start], then [getTokenPrice] when the start went through. *)
Definition oracle_call (mintAddress apiKey : string) (e : Env)
  : Settled Err TokenPriceResponse * Env :=
  match Moralis_start apiKey e with
  | (Fulfilled _, e1) =>
      Moralis_SolApi_token_getTokenPrice "mainnet" mintAddress e1
  | (RejectedWith err, e1) => (RejectedWith err, e1)
  end.

(** What decoding the account data of a ledger record gives. *)
Definition decode_record (r : KeyedAccount) : Called Err SplAccount :=
  SPL_ACCOUNT_LAYOUT_decode (data (ka_account r)).

(** The account data of the record can be decoded. *)
Definition decodes (r : KeyedAccount) : Prop :=
  exists a, decode_record r = Completed a.

(** The error of the first record that cannot be decoded, if there is one. *)
Fixpoint first_decode_error (records : list KeyedAccount) : option Err :=
  match records with
  | [] => None
  | r :: rest =>
      match decode_record r with
      | Completed _ => first_decode_error rest
      | Threw e => Some e
      end
  end.

(** The records before the first one that cannot be decoded. *)
Fixpoint decoded_prefix (records : list KeyedAccount) : list KeyedAccount :=
  match records with
  | [] => []
  | r :: rest =>
      match decode_record r with
      | Completed _ => r :: decoded_prefix rest
      | Threw _ => []
      end
  end.

(** The mint address a decoded account is priced under. *)
Definition mint_address (a : SplAccount) : string := toBase58 (spl_mint a).

(** The outside world once the records of [records] have been priced, one
    after the other, up to the first that cannot be decoded. *)
Fixpoint env_after (records : list KeyedAccount) (e : Env) : Env :=
  match records with
  | [] => e
  | r :: rest =>
      match decode_record r with
      | Completed a =>
          env_after rest (snd (oracle_call (mint_address a) MORALIS_API_KEY e))
      | Threw _ => e
      end
  end.

(** The holding that belongs to a ledger record: every field but the price. *)
Definition holding_of (r : KeyedAccount)
    (h : TokenAccountWithAmountAndPrice) : Prop :=
  pubkey h = ka_pubkey r
  /\ ta_programId h = owner (ka_account r)
  /\ decode_record r = Completed (accountInfo h)
  /\ amount h = spl_amount (accountInfo h).

(** The requests one lookup sends to the Price Oracle: [Moralis.start],
    and [getTokenPrice] when the start went through. *)
Definition oracle_requests (mintAddress apiKey : string) (e : Env)
  : list Event :=
  EvMoralisStart apiKey
  :: match fst (Moralis_start apiKey e) with
     | Fulfilled _ => [EvGetTokenPrice "mainnet" mintAddress]
     | RejectedWith _ => []
     end.

(** The requests pricing [records] sends, one record after the other, up
    to the first that cannot be decoded. *)
Fixpoint requests_for (records : list KeyedAccount) (e : Env) : list Event :=
  match records with
  | [] => []
  | r :: rest =>
      match decode_record r with
      | Completed a =>
          oracle_requests (mint_address a) MORALIS_API_KEY e
          ++ requests_for rest
               (snd (oracle_call (mint_address a) MORALIS_API_KEY e))
      | Threw _ => []
      end
  end.

(** What one call of [fetchCoinPrice] adds to the trace: the line that
    announces the lookup, the requests, and the line that reports a zero
    price or a failure. *)
Definition fetch_events (mintAddress apiKey : string) (e : Env)
  : list Event :=
  EvConsoleLog [LStr "Fetching real-time coin price:";
                LStr mintAddress; LStr apiKey]
  :: oracle_requests mintAddress apiKey e
  ++ match fst (oracle_call mintAddress apiKey e) with
     | Fulfilled resp =>
         if strict_eq_zero (usdPrice (raw resp)) then
           [EvConsoleLog [LStr ("Price of coin " +:+ mintAddress
                                +:+ " is 0, returning undefined")]]
         else []
     | RejectedWith err =>
         [EvConsoleError [LStr "Fetching real-time coin price:"; LErr err]]
     end.

(** What the loop over [records] adds to the trace. *)
Fixpoint loop_events (records : list KeyedAccount) (e : Env) : list Event :=
  match records with
  | [] => []
  | r :: rest =>
      match decode_record r with
      | Completed a =>
          fetch_events (mint_address a) MORALIS_API_KEY e
          ++ loop_events rest
               (snd (oracle_call (mint_address a) MORALIS_API_KEY e))
      | Threw _ => []
      end
  end.

End Code.

End Liquidity.


(* ===================================================================== *)
(** * src/constants/constants.ts                                          *)
(* ===================================================================== *)

Module Constants.
Import JS Runtime.

(** [process.env]: the named string variables of the process environment. *)
Abbreviation ProcessEnv := (gmap string string).

(** The exported constants, in the order the module defines them. *)
Record Exports : Type := {
  NETWORK : string;
  COMMITMENT_LEVEL : Commitment;
  RPC_ENDPOINT : string;
  RPC_WEBSOCKET_ENDPOINT : string;
  LOG_LEVEL : string;
  CHECK_IF_MINT_IS_RENOUNCED : bool;
  MAX_SELL_RETRIES : number;
  PRIVATE_KEY : string;
  QUOTE_MINT : string;
  QUOTE_AMOUNT : string;
  MIN_POOL_SIZE : string;
  MAX_POOL_SIZE : string;
  ONE_TOKEN_AT_A_TIME : bool;
  SELL_AFTER_GAIN_PERCENTAGE : number;
}.

Definition possibleCommitments : list string :=
  ["processed"; "confirmed"; "finalized"].

(** [array.includes(x)] on strings. *)
Definition includes (l : list string) (x : string) : bool :=
  existsb (String.eqb x) l.

(** [array.join(sep)]. *)
Definition join (sep : string) (l : list string) : string :=
  String.concat sep l.

(** The settings the module reads, in the order it reads them. *)
Definition required_settings : list string :=
  ["COMMITMENT_LEVEL"; "RPC_ENDPOINT"; "RPC_WEBSOCKET_ENDPOINT"; "LOG_LEVEL";
   "CHECK_IF_MINT_IS_RENOUNCED"; "MAX_SELL_RETRIES"; "PRIVATE_KEY";
   "QUOTE_MINT"; "QUOTE_AMOUNT"; "MIN_POOL_SIZE"; "MAX_POOL_SIZE";
   "ONE_TOKEN_AT_A_TIME"; "SELL_AFTER_GAIN_PERCENTAGE"].

Section Loading.
Context `{SdkTypes}.
Variable process_env : ProcessEnv.

(** Modelled from the spec: [retrieveEnvVariable] of [../utils] is not
    among the sources. "For each named setting, read a value from the
    environment; if required and absent, log an error and terminate the
    process immediately"; the log line identifies the offending setting and
    the exit status is that of a failure. *)
Definition retrieveEnvVariable (variableName : string) : Proc string :=
  match process_env !! variableName with
  | Some v => mret v
  | None =>
      logger_error [] (variableName +:+ " is not set");;
      process_exit 1
  end.

(** Lines 7 to 11: [COMMITMENT_LEVEL] and its check. *)
Definition load_commitment_level : Proc Commitment :=
  COMMITMENT_LEVEL ← retrieveEnvVariable "COMMITMENT_LEVEL";
  (if negb (includes possibleCommitments COMMITMENT_LEVEL) then
     logger_error [("COMMITMENT_LEVEL", COMMITMENT_LEVEL)]
       ("Invalid commitment level. Possible values are "
        +:+ join ", " possibleCommitments);;
     process_exit 1
   else mret tt);;
  mret COMMITMENT_LEVEL.

(** Lines 12 to 23: the settings that are only read. *)
Definition load_settings (COMMITMENT_LEVEL : Commitment) : Proc Exports :=
  RPC_ENDPOINT ← retrieveEnvVariable "RPC_ENDPOINT";
  RPC_WEBSOCKET_ENDPOINT ← retrieveEnvVariable "RPC_WEBSOCKET_ENDPOINT";
  LOG_LEVEL ← retrieveEnvVariable "LOG_LEVEL";
  CHECK_IF_MINT_IS_RENOUNCED ← retrieveEnvVariable "CHECK_IF_MINT_IS_RENOUNCED";
  MAX_SELL_RETRIES ← retrieveEnvVariable "MAX_SELL_RETRIES";
  PRIVATE_KEY ← retrieveEnvVariable "PRIVATE_KEY";
  QUOTE_MINT ← retrieveEnvVariable "QUOTE_MINT";
  QUOTE_AMOUNT ← retrieveEnvVariable "QUOTE_AMOUNT";
  MIN_POOL_SIZE ← retrieveEnvVariable "MIN_POOL_SIZE";
  MAX_POOL_SIZE ← retrieveEnvVariable "MAX_POOL_SIZE";
  ONE_TOKEN_AT_A_TIME ← retrieveEnvVariable "ONE_TOKEN_AT_A_TIME";
  SELL_AFTER_GAIN_PERCENTAGE ← retrieveEnvVariable "SELL_AFTER_GAIN_PERCENTAGE";
  mret {|
    NETWORK := "mainnet-beta";
    COMMITMENT_LEVEL := COMMITMENT_LEVEL;
    RPC_ENDPOINT := RPC_ENDPOINT;
    RPC_WEBSOCKET_ENDPOINT := RPC_WEBSOCKET_ENDPOINT;
    LOG_LEVEL := LOG_LEVEL;
    CHECK_IF_MINT_IS_RENOUNCED := String.eqb CHECK_IF_MINT_IS_RENOUNCED "true";
    MAX_SELL_RETRIES := Number MAX_SELL_RETRIES;
    PRIVATE_KEY := PRIVATE_KEY;
    QUOTE_MINT := QUOTE_MINT;
    QUOTE_AMOUNT := QUOTE_AMOUNT;
    MIN_POOL_SIZE := MIN_POOL_SIZE;
    MAX_POOL_SIZE := MAX_POOL_SIZE;
    ONE_TOKEN_AT_A_TIME := String.eqb ONE_TOKEN_AT_A_TIME "true";
    SELL_AFTER_GAIN_PERCENTAGE := parseFloat SELL_AFTER_GAIN_PERCENTAGE;
  |}.

(** Loading the module: its top-level statements, in order. *)
Definition load_module : Proc Exports :=
  COMMITMENT_LEVEL ← load_commitment_level;
  load_settings COMMITMENT_LEVEL.

End Loading.

End Constants.

(* ===================================================================== *)
(** * A concrete outside world                                            *)
(* ===================================================================== *)

(** Keys are written by name, an account's bytes by what they decode to
    (or as too short to decode), and the outside world counts the requests
    it has served. The ledger knows five wallets; the oracle prices mint
    [A] at 0.05, times out on [B], answers -1 for [C] and 0 for [Z]. Big
    numbers convert as in bn.js: up to 53 bits. *)
Module Scenario.
Import JS Runtime Liquidity Constants.

(** The bytes of an account: a token account, or data cut short. *)
Inductive AccountData : Type :=
| TokenData (mint : string) (amount : N)
| Truncated.

#[export] Instance types : SdkTypes := {|
  PublicKey := string;
  BN := N;
  Buffer := AccountData;
  SplAccount := string * N;
  Connection := unit;
  Err := string;
  Env := nat;
|}.

Definition token_account (name mint : string) (amount : N) : KeyedAccount :=
  {| ka_pubkey := name;
     ka_account := {| data := TokenData mint amount; owner := "TokenkegQ" |} |}.

Definition truncated_account (name : string) : KeyedAccount :=
  {| ka_pubkey := name;
     ka_account := {| data := Truncated; owner := "TokenkegQ" |} |}.

Definition alice_accounts : list KeyedAccount :=
  [token_account "acct1" "A" 1000; token_account "acct2" "B" 500].

Definition bob_accounts : list KeyedAccount :=
  [token_account "acct3" "C" 7; token_account "acct4" "Z" 1].

Definition carol_accounts : list KeyedAccount :=
  [token_account "acct5" "A" 3; truncated_account "acct6"].

Definition dave_accounts : list KeyedAccount :=
  [truncated_account "acct7"].

Definition ledger (_ : Connection) (owner _ : PublicKey)
    (_ : option Commitment) (e : Env)
  : Settled Err TokenAccountsResponse * Env :=
  (if String.eqb owner "alice" then Fulfilled {| value := alice_accounts |}
   else if String.eqb owner "bob" then Fulfilled {| value := bob_accounts |}
   else if String.eqb owner "carol"
   then Fulfilled {| value := carol_accounts |}
   else if String.eqb owner "dave" then Fulfilled {| value := dave_accounts |}
   else if String.eqb owner "nobody" then Fulfilled {| value := [] |}
   else RejectedWith "ledger unavailable",
   S e).

Definition decode (b : AccountData) : Called Err SplAccount :=
  match b with
  | TokenData mint amount => Completed (mint, amount)
  | Truncated => Threw "RangeError: offset is out of range"
  end.

Definition toNumber (n : N) : Called Err number :=
  if (n <? 2 ^ 53)%N then Completed (of_Z (Z.of_N n))
  else Threw "Number can only safely store up to 53 bits".

Definition quote (p : option number) : TokenPriceResponse :=
  {| raw := {| usdPrice := p |} |}.

Definition oracle (_ address : string) (e : Env)
  : Settled Err TokenPriceResponse * Env :=
  (if String.eqb address "A" then Fulfilled (quote (Some (Number "0.05")))
   else if String.eqb address "B" then RejectedWith "timeout"
   else if String.eqb address "C" then Fulfilled (quote (Some (of_Z (-1))))
   else if String.eqb address "Z" then Fulfilled (quote (Some pos_zero))
   else Fulfilled (quote None),
   S e).

#[export] Instance sdk : Sdk := {|
  toBase58 := fun k => k;
  PublicKey_default := "11111111";
  connection_getTokenAccountsByOwner := ledger;
  BN_toNumber := toNumber;
  MAINNET_PROGRAM_ID_AmmV4 := "675kPX9M";
  MAINNET_PROGRAM_ID_OPENBOOK_MARKET := "srmqPvym";
  Liquidity_getAssociatedAuthority :=
    fun p =>
      Completed {| publicKey := "authority of " +:+ p; nonce := of_Z 255 |};
  Market_getAssociatedAuthority :=
    fun p m =>
      Completed {| publicKey := "authority of " +:+ m; nonce := of_Z 0 |};
  SPL_ACCOUNT_LAYOUT_decode := decode;
  spl_mint := fst;
  spl_amount := snd;
  TOKEN_PROGRAM_ID := "TokenkegQ";
  Moralis_start := fun _ e => (Fulfilled tt, S e);
  Moralis_SolApi_token_getTokenPrice := oracle;
  MORALIS_API_KEY := "key";
|}.

Definition start : World := {| env := 0%nat; trace := [] |}.

(** A pool state whose base decimals are [baseDecimal]. *)
Definition pool_state (baseDecimal : N) : LiquidityStateV4 :=
  {| st_baseMint := "baseMint";
     st_quoteMint := "quoteMint";
     st_lpMint := "lpMint";
     st_baseDecimal := baseDecimal;
     st_quoteDecimal := 9%N;
     st_openOrders := "openOrders";
     st_targetOrders := "targetOrders";
     st_baseVault := "baseVault";
     st_quoteVault := "quoteVault";
     st_marketProgramId := "srmqPvym";
     st_marketId := "market";
     st_withdrawQueue := "withdrawQueue";
     st_lpVault := "lpVault" |}.

Definition market_layout : MinimalMarketLayoutV3 :=
  {| eventQueue := "eventQueue"; bids := "bids"; asks := "asks" |}.

Definition other_layout : MinimalMarketLayoutV3 :=
  {| eventQueue := "eventQueue2"; bids := "bids2"; asks := "asks2" |}.

(** An environment with every setting present. *)
Definition full_env : ProcessEnv :=
  list_to_map
    [("COMMITMENT_LEVEL", "finalized");
     ("RPC_ENDPOINT", "https://rpc.example");
     ("RPC_WEBSOCKET_ENDPOINT", "wss://rpc.example");
     ("LOG_LEVEL", "info");
     ("CHECK_IF_MINT_IS_RENOUNCED", "true");
     ("MAX_SELL_RETRIES", "5");
     ("PRIVATE_KEY", "secret");
     ("QUOTE_MINT", "WSOL");
     ("QUOTE_AMOUNT", "0.01");
     ("MIN_POOL_SIZE", "0");
     ("MAX_POOL_SIZE", "100");
     ("ONE_TOKEN_AT_A_TIME", "false");
     ("SELL_AFTER_GAIN_PERCENTAGE", "5%")].

(** The same with a commitment level outside the allowed set. *)
Definition urgent_env : ProcessEnv :=
  <["COMMITMENT_LEVEL" := "urgent"]> full_env.

(** The same with a retry count that is no number. *)
Definition sloppy_env : ProcessEnv :=
  <["MAX_SELL_RETRIES" := "many"]> full_env.

(** The same with a gain made of digits only. *)
Definition tidy_env : ProcessEnv :=
  <["SELL_AFTER_GAIN_PERCENTAGE" := "25"]> full_env.

(** The same with both numeric settings left blank. *)
Definition blank_env : ProcessEnv :=
  <["MAX_SELL_RETRIES" := " "]>
    (<["SELL_AFTER_GAIN_PERCENTAGE" := " "]> full_env).

End Scenario.

(* ===================================================================== *)
(** * Properties of the liquidity helpers                                 *)
(* ===================================================================== *)

Import JS Runtime Liquidity Constants.

Section LiquidityFacts.
Context `{Sdk}.

(** The price [fetchCoinPrice] makes of an oracle answer. *)
Local Abbreviation price_of answer :=
  (match answer with
   | Fulfilled resp =>
       if strict_eq_zero (usdPrice (raw resp)) then None
       else usdPrice (raw resp)
   | RejectedWith _ => None
   end).

Lemma first_decode_error_None (records : list KeyedAccount) :
  first_decode_error records = None <-> List.Forall decodes records.
Proof.
  induction records as [|r rest IH]; cbn.
  - split; [constructor|reflexivity].
  - destruct (decode_record r) as [a|e] eqn:Hd.
    + rewrite IH. split.
      * intros Hrest. constructor; [now exists a|exact Hrest].
      * intros Hall. now inversion Hall.
    + split; [discriminate|]. intros Hall. inversion Hall as [|? ? [a Ha] _].
      congruence.
Qed.

Lemma decoded_prefix_all (records : list KeyedAccount) :
  List.Forall decodes records -> decoded_prefix records = records.
Proof.
  induction 1 as [|r rest [a Ha] _ IH]; cbn; [reflexivity|].
  now rewrite Ha, IH.
Qed.

Lemma decoded_prefix_length (records : list KeyedAccount) :
  (length (decoded_prefix records) <= length records)%nat.
Proof.
  induction records as [|r rest IH]; cbn; [lia|].
  destruct (decode_record r); cbn; lia.
Qed.

(** [fetchCoinPrice] always returns: it performs one oracle call and turns
    the answer into a price; nothing is thrown. *)
Lemma fetchCoinPrice_run (mintAddress apiKey : string) (w : World) :
  exists tr,
    fetchCoinPrice mintAddress apiKey w =
      (Returned (price_of (fst (oracle_call mintAddress apiKey (env w)))),
       {| env := snd (oracle_call mintAddress apiKey (env w));
          trace := trace w ++ tr |}).
Proof.
  unfold fetchCoinPrice, oracle_call, try_catch, mbind, proc_bind, bind,
    mret, proc_ret, ret, console_log, console_error, log_event, await, emit.
  cbn.
  destruct (Moralis_start apiKey (env w)) as [[u|e] e1]; cbn.
  - destruct (Moralis_SolApi_token_getTokenPrice "mainnet" mintAddress e1)
      as [[resp|e] e2]; cbn.
    + destruct (strict_eq_zero (usdPrice (raw resp))); cbn;
        rewrite <- ?app_assoc; eauto.
    + rewrite <- ?app_assoc; eauto.
  - rewrite <- ?app_assoc; eauto.
Qed.

(** One turn of the loop on a record that decodes. *)
Lemma for_of_value_step (r : KeyedAccount) (rest : list KeyedAccount)
    (accounts : list TokenAccountWithAmountAndPrice) (w : World)
    (a : SplAccount) :
  decode_record r = Completed a ->
  exists tr,
    for_of_value (r :: rest) accounts w =
      for_of_value rest
        (accounts ++
           [ {| pubkey := ka_pubkey r;
                ta_programId := owner (ka_account r);
                accountInfo := a;
                price := price_of (fst (oracle_call (mint_address a)
                                          MORALIS_API_KEY (env w)));
                amount := spl_amount a |} ])
        {| env := snd (oracle_call (mint_address a) MORALIS_API_KEY (env w));
           trace := trace w ++ tr |}.
Proof.
  intros Hd.
  destruct (fetchCoinPrice_run (mint_address a) MORALIS_API_KEY w)
    as [tr Hf].
  exists tr. cbn [for_of_value]. unfold mbind, proc_bind, bind.
  fold (decode_record r). rewrite Hd. cbn [call].
  fold (mint_address a). now rewrite Hf.
Qed.

(** When every record decodes, the loop visits every record once, in
    order: it returns, it appends one holding per record, and the price of
    a holding is what [fetchCoinPrice] makes of the oracle's answer at that
    point. *)
Lemma for_of_value_returns (records : list KeyedAccount)
    (accounts : list TokenAccountWithAmountAndPrice) (w : World) :
  List.Forall decodes records ->
  exists hs tr,
    for_of_value records accounts w =
      (Returned (accounts ++ hs),
       {| env := env_after records (env w); trace := trace w ++ tr |})
    /\ Forall2 holding_of records hs
    /\ Forall (fun h => strict_eq_zero (price h) = false) hs
    /\ (forall pre r post a, records = pre ++ r :: post ->
        decode_record r = Completed a ->
        exists h, hs !! length pre = Some h
          /\ holding_of r h
          /\ price h =
               price_of (fst (oracle_call (mint_address a) MORALIS_API_KEY
                                (env_after pre (env w))))).
Proof.
  intros Hall. revert accounts w.
  induction Hall as [|r0 rest [a0 Hd0] _ IH]; intros accounts w.
  - exists [], []. rewrite !app_nil_r. destruct w; cbn.
    split; [reflexivity|]. split; [constructor|]. split; [constructor|].
    intros pre r post a Hnil. destruct pre; discriminate.
  - destruct (for_of_value_step r0 rest accounts w a0 Hd0) as [tr0 Hstep].
    rewrite Hstep.
    match goal with
    | |- context [for_of_value rest (accounts ++ [?h0]) ?w1] =>
        destruct (IH (accounts ++ [h0]) w1)
          as (hs & tr & Hrun & Hof & Hnz & Hnth);
        exists (h0 :: hs), (tr0 ++ tr)
    end.
    rewrite Hrun. cbn [env trace env_after]. rewrite Hd0.
    rewrite <- !app_assoc. cbn [app].
    split; [reflexivity|]. split; [|split].
    + constructor; [|exact Hof]. repeat split. exact Hd0.
    + constructor; [|exact Hnz]. cbn [price].
      destruct (fst (oracle_call (mint_address a0) MORALIS_API_KEY (env w)))
        as [resp|e]; [|reflexivity].
      destruct (strict_eq_zero (usdPrice (raw resp))) eqn:Hz;
        [reflexivity|exact Hz].
    + intros pre r post a Heq Hd. destruct pre as [|r1 pre]; cbn in Heq.
      * injection Heq as -> ->. rewrite Hd0 in Hd. injection Hd as <-.
        eexists. split; [reflexivity|].
        split; [repeat split; exact Hd0|reflexivity].
      * injection Heq as -> ->. cbn [length env_after]. rewrite Hd0.
        destruct (Hnth pre r post a eq_refl Hd) as (h & Hh & Hofh & Hp).
        exists h. split; [exact Hh|]. split; [exact Hofh|exact Hp].
Qed.

(** The loop throws what the first record that cannot be decoded throws. *)
Lemma for_of_value_throws (records : list KeyedAccount)
    (accounts : list TokenAccountWithAmountAndPrice) (w : World) (e : Err) :
  first_decode_error records = Some e ->
  exists w', for_of_value records accounts w = (Thrown e, w').
Proof.
  revert accounts w.
  induction records as [|r rest IH]; intros accounts w; cbn [first_decode_error];
    [discriminate|].
  destruct (decode_record r) as [a|e0] eqn:Hd.
  - intros Hrest.
    destruct (for_of_value_step r rest accounts w a Hd) as [tr Hstep].
    rewrite Hstep. now apply IH.
  - intros [= ->]. cbn [for_of_value]. unfold mbind, proc_bind, bind.
    fold (decode_record r). rewrite Hd. cbn [call]. eauto.
Qed.

(** [getTokenAccounts] when the ledger answers with records that decode. *)
Lemma getTokenAccounts_run (connection : Connection) (owner : PublicKey)
    (commitment : option Commitment) (w : World)
    (resp : TokenAccountsResponse) (e0 : Env) :
  connection_getTokenAccountsByOwner connection owner TOKEN_PROGRAM_ID
    commitment (env w) = (Fulfilled resp, e0) ->
  List.Forall decodes (value resp) ->
  exists hs w',
    getTokenAccounts connection owner commitment w = (Returned hs, w')
    /\ Forall2 holding_of (value resp) hs
    /\ Forall (fun h => strict_eq_zero (price h) = false) hs
    /\ (forall pre r post a, value resp = pre ++ r :: post ->
        decode_record r = Completed a ->
        exists h, hs !! length pre = Some h
          /\ holding_of r h
          /\ price h =
               price_of (fst (oracle_call (mint_address a) MORALIS_API_KEY
                                (env_after pre e0)))).
Proof.
  intros Hledger Hall.
  unfold getTokenAccounts, mbind, proc_bind, bind, await.
  rewrite Hledger.
  match goal with
  | |- context [for_of_value (value resp) [] ?w0] =>
      destruct (for_of_value_returns (value resp) [] w0 Hall)
        as (hs & tr & Hrun & Hof & Hnz & Hnth)
  end.
  rewrite Hrun. cbn. eauto 10.
Qed.

(** [getTokenAccounts] when the ledger answers with a record that cannot be
    decoded: the decode error is thrown to the caller. *)
Lemma getTokenAccounts_decode_error (connection : Connection)
    (owner : PublicKey) (commitment : option Commitment) (w : World)
    (resp : TokenAccountsResponse) (e0 : Env) (e : Err) :
  connection_getTokenAccountsByOwner connection owner TOKEN_PROGRAM_ID
    commitment (env w) = (Fulfilled resp, e0) ->
  first_decode_error (value resp) = Some e ->
  exists w', getTokenAccounts connection owner commitment w = (Thrown e, w').
Proof.
  intros Hledger Herr.
  unfold getTokenAccounts, mbind, proc_bind, bind, await.
  rewrite Hledger.
  match goal with
  | |- context [for_of_value (value resp) [] ?w0] =>
      destruct (for_of_value_throws (value resp) [] w0 e Herr) as [w' Hrun]
  end.
  rewrite Hrun. eauto.
Qed.

(** [getTokenAccounts] when the ledger call rejects: the rejection is
    thrown to the caller. *)
Lemma getTokenAccounts_rejected (connection : Connection) (owner : PublicKey)
    (commitment : option Commitment) (w : World) (e : Err) (e0 : Env) :
  connection_getTokenAccountsByOwner connection owner TOKEN_PROGRAM_ID
    commitment (env w) = (RejectedWith e, e0) ->
  getTokenAccounts connection owner commitment w =
    (Thrown e,
     {| env := e0;
        trace := trace w ++ [EvGetTokenAccountsByOwner owner TOKEN_PROGRAM_ID
                               commitment] |}).
Proof.
  intros Hledger.
  unfold getTokenAccounts, mbind, proc_bind, bind, await.
  rewrite Hledger. reflexivity.
Qed.

(** A run that returns had records that all decode. *)
Lemma getTokenAccounts_returned (connection : Connection) (owner : PublicKey)
    (commitment : option Commitment) (w w' : World)
    (hs : list TokenAccountWithAmountAndPrice) :
  getTokenAccounts connection owner commitment w = (Returned hs, w') ->
  exists resp e0,
    connection_getTokenAccountsByOwner connection owner TOKEN_PROGRAM_ID
      commitment (env w) = (Fulfilled resp, e0)
    /\ List.Forall decodes (value resp).
Proof.
  intros Hrun.
  destruct (connection_getTokenAccountsByOwner connection owner
              TOKEN_PROGRAM_ID commitment (env w)) as [[resp|e] e0] eqn:Hl.
  - exists resp, e0. split; [reflexivity|].
    apply first_decode_error_None.
    destruct (first_decode_error (value resp)) as [e|] eqn:Herr;
      [|reflexivity].
    destruct (getTokenAccounts_decode_error _ _ _ _ _ _ _ Hl Herr)
      as [w0 Hthrow].
    congruence.
  - rewrite (getTokenAccounts_rejected _ _ _ _ _ _ Hl) in Hrun. discriminate.
Qed.

(** C1 (as amended). When the ledger answers with k records that all
    decode, [getTokenAccounts] returns k holdings, the i-th built from the
    i-th record (same account key, owning program, decoded account and
    amount), whatever the oracle does. When a record does not decode, the
    error of the first such record is thrown and no list is returned. *)
Theorem getTokenAccounts_one_holding_per_record
    (connection : Connection) (owner : PublicKey)
    (commitment : option Commitment) (w : World)
    (resp : TokenAccountsResponse) (e0 : Env) :
  connection_getTokenAccountsByOwner connection owner TOKEN_PROGRAM_ID
    commitment (env w) = (Fulfilled resp, e0) ->
  (List.Forall decodes (value resp) ->
   exists hs w',
     getTokenAccounts connection owner commitment w = (Returned hs, w')
     /\ length hs = length (value resp)
     /\ Forall2 holding_of (value resp) hs
     /\ map pubkey hs = map ka_pubkey (value resp))
  /\ (forall e, first_decode_error (value resp) = Some e ->
      exists w',
        getTokenAccounts connection owner commitment w = (Thrown e, w')).
Proof.
  intros Hledger. split.
  - intros Hall.
    destruct (getTokenAccounts_run _ _ _ _ _ _ Hledger Hall)
      as (hs & w' & Hrun & Hof & _).
    exists hs, w'. split; [exact Hrun|].
    split; [symmetry; eapply Forall2_length; exact Hof|].
    split; [exact Hof|].
    clear Hrun Hall. induction Hof as [|r h rs hs' Hrh _ IH]; [reflexivity|].
    cbn. destruct Hrh as (-> & _). now rewrite IH.
  - intros e Herr. now apply (getTokenAccounts_decode_error _ _ _ _ resp e0).
Qed.

(** C2 (as amended). An oracle call that rejects leaves the price of its
    holding absent and never escapes: [fetchCoinPrice] returns [undefined].
    [getTokenAccounts] throws in two cases only, the ledger call rejecting
    (that rejection is thrown) and a record that cannot be decoded (the
    error of the first such record is thrown); in every other case it
    returns, and the holding of a record whose oracle call rejects has no
    price. *)
Theorem oracle_failure_is_swallowed :
  (forall mintAddress apiKey w err e1,
      oracle_call mintAddress apiKey (env w) = (RejectedWith err, e1) ->
      exists w', fetchCoinPrice mintAddress apiKey w = (Returned None, w'))
  /\ (forall mintAddress apiKey w,
        exists p w', fetchCoinPrice mintAddress apiKey w = (Returned p, w'))
  /\ (forall connection owner commitment w,
        match fst (connection_getTokenAccountsByOwner connection owner
                     TOKEN_PROGRAM_ID commitment (env w)) with
        | RejectedWith e =>
            exists w',
              getTokenAccounts connection owner commitment w = (Thrown e, w')
        | Fulfilled resp =>
            match first_decode_error (value resp) with
            | Some e =>
                exists w',
                  getTokenAccounts connection owner commitment w
                  = (Thrown e, w')
            | None =>
                exists hs w',
                  getTokenAccounts connection owner commitment w
                  = (Returned hs, w')
            end
        end)
  /\ (forall connection owner commitment w resp e0 pre r post a err e1,
        connection_getTokenAccountsByOwner connection owner TOKEN_PROGRAM_ID
          commitment (env w) = (Fulfilled resp, e0) ->
        List.Forall decodes (value resp) ->
        value resp = pre ++ r :: post ->
        decode_record r = Completed a ->
        oracle_call (mint_address a) MORALIS_API_KEY (env_after pre e0)
          = (RejectedWith err, e1) ->
        exists hs w' h,
          getTokenAccounts connection owner commitment w = (Returned hs, w')
          /\ hs !! length pre = Some h
          /\ holding_of r h
          /\ price h = None).
Proof.
  split; [|split; [|split]].
  - intros mintAddress apiKey w err e1 Hcall.
    destruct (fetchCoinPrice_run mintAddress apiKey w) as [tr Hf].
    rewrite Hcall in Hf. eauto.
  - intros mintAddress apiKey w.
    destruct (fetchCoinPrice_run mintAddress apiKey w) as [tr Hf]. eauto.
  - intros connection owner commitment w.
    destruct (connection_getTokenAccountsByOwner connection owner
                TOKEN_PROGRAM_ID commitment (env w)) as [[resp|e] e0] eqn:Hl;
      cbn [fst].
    + destruct (first_decode_error (value resp)) as [e|] eqn:Herr.
      * now apply (getTokenAccounts_decode_error _ _ _ _ resp e0).
      * apply first_decode_error_None in Herr.
        destruct (getTokenAccounts_run _ _ _ _ _ _ Hl Herr)
          as (hs & w' & Hrun & _).
        eauto.
    + rewrite (getTokenAccounts_rejected _ _ _ _ _ _ Hl). eauto.
  - intros connection owner commitment w resp e0 pre r post a err e1
      Hl Hall Hval Hd Hcall.
    destruct (getTokenAccounts_run _ _ _ _ _ _ Hl Hall)
      as (hs & w' & Hrun & _ & _ & Hnth).
    destruct (Hnth pre r post a Hval Hd) as (h & Hh & Hof & Hp).
    rewrite Hcall in Hp. cbn in Hp. eauto 10.
Qed.

(** C3 (as amended). The price of a holding is absent or a number that is
    not zero: the only oracle price that is dropped is zero. Any other
    number the oracle answers, of whatever sign, is on the holding as it
    came. *)
Theorem price_is_absent_or_nonzero :
  (forall connection owner commitment w w' hs h,
      getTokenAccounts connection owner commitment w = (Returned hs, w') ->
      In h hs ->
      price h = None
      \/ exists p, price h = Some p /\ SFeqb p pos_zero = false)
  /\ (forall connection owner commitment w resp0 e0 pre r post a resp e1 p,
        connection_getTokenAccountsByOwner connection owner TOKEN_PROGRAM_ID
          commitment (env w) = (Fulfilled resp0, e0) ->
        List.Forall decodes (value resp0) ->
        value resp0 = pre ++ r :: post ->
        decode_record r = Completed a ->
        oracle_call (mint_address a) MORALIS_API_KEY (env_after pre e0)
          = (Fulfilled resp, e1) ->
        usdPrice (raw resp) = Some p ->
        SFeqb p pos_zero = false ->
        exists hs w' h,
          getTokenAccounts connection owner commitment w = (Returned hs, w')
          /\ hs !! length pre = Some h
          /\ holding_of r h
          /\ price h = Some p).
Proof.
  split.
  - intros connection owner commitment w w' hs h Hrun Hin.
    destruct (getTokenAccounts_returned _ _ _ _ _ _ Hrun)
      as (resp & e0 & Hl & Hall).
    destruct (getTokenAccounts_run _ _ _ _ _ _ Hl Hall)
      as (hs0 & w0 & Hrun0 & _ & Hnz & _).
    rewrite Hrun in Hrun0. injection Hrun0 as <- <-.
    rewrite List.Forall_forall in Hnz. specialize (Hnz h Hin).
    destruct (price h) as [p|]; [right|left; reflexivity].
    exists p. split; [reflexivity|exact Hnz].
  - intros connection owner commitment w resp0 e0 pre r post a resp e1 p
      Hl Hall Hval Hd Hcall Hp Hnz.
    destruct (getTokenAccounts_run _ _ _ _ _ _ Hl Hall)
      as (hs & w' & Hrun & _ & _ & Hnth).
    destruct (Hnth pre r post a Hval Hd) as (h & Hh & Hof & Hprice).
    rewrite Hcall in Hprice. cbn [fst] in Hprice. rewrite Hp in Hprice.
    cbn [strict_eq_zero] in Hprice. rewrite Hnz in Hprice. eauto 10.
Qed.

(** C4. An oracle answer whose [usdPrice] is zero (of either sign) makes
    [fetchCoinPrice] return [undefined], and the holding priced by that
    answer has no price. *)
Theorem zero_price_is_absent :
  (forall mintAddress apiKey w resp e1 sign,
      oracle_call mintAddress apiKey (env w) = (Fulfilled resp, e1) ->
      usdPrice (raw resp) = Some (S754_zero sign) ->
      exists w', fetchCoinPrice mintAddress apiKey w = (Returned None, w'))
  /\ (forall connection owner commitment w resp0 e0 pre r post a resp e1 sign,
        connection_getTokenAccountsByOwner connection owner TOKEN_PROGRAM_ID
          commitment (env w) = (Fulfilled resp0, e0) ->
        List.Forall decodes (value resp0) ->
        value resp0 = pre ++ r :: post ->
        decode_record r = Completed a ->
        oracle_call (mint_address a) MORALIS_API_KEY (env_after pre e0)
          = (Fulfilled resp, e1) ->
        usdPrice (raw resp) = Some (S754_zero sign) ->
        exists hs w' h,
          getTokenAccounts connection owner commitment w = (Returned hs, w')
          /\ hs !! length pre = Some h
          /\ holding_of r h
          /\ price h = None).
Proof.
  split.
  - intros mintAddress apiKey w resp e1 sign Hcall Hzero.
    destruct (fetchCoinPrice_run mintAddress apiKey w) as [tr Hf].
    rewrite Hcall in Hf. cbn [fst snd] in Hf. rewrite Hzero in Hf.
    cbn in Hf. eauto.
  - intros connection owner commitment w resp0 e0 pre r post a resp e1 sign
      Hl Hall Hval Hd Hcall Hzero.
    destruct (getTokenAccounts_run _ _ _ _ _ _ Hl Hall)
      as (hs & w' & Hrun & _ & _ & Hnth).
    destruct (Hnth pre r post a Hval Hd) as (h & Hh & Hof & Hp).
    rewrite Hcall in Hp. cbn [fst] in Hp. rewrite Hzero in Hp. cbn in Hp.
    eauto 10.
Qed.

(** A number above zero is not equal to zero. *)
Lemma gt_zero_not_zero (p : number) :
  gt_zero p = true -> SFeqb p pos_zero = false.
Proof. destruct p as [s|s| |s m e]; try destruct s; cbn; congruence. Qed.

(** C5. An oracle answer with a positive [usdPrice] p makes
    [fetchCoinPrice] return p itself, and the holding priced by that answer
    carries p. *)
Theorem positive_price_is_kept :
  (forall mintAddress apiKey w resp e1 p,
      oracle_call mintAddress apiKey (env w) = (Fulfilled resp, e1) ->
      usdPrice (raw resp) = Some p ->
      gt_zero p = true ->
      exists w', fetchCoinPrice mintAddress apiKey w = (Returned (Some p), w'))
  /\ (forall connection owner commitment w resp0 e0 pre r post a resp e1 p,
        connection_getTokenAccountsByOwner connection owner TOKEN_PROGRAM_ID
          commitment (env w) = (Fulfilled resp0, e0) ->
        List.Forall decodes (value resp0) ->
        value resp0 = pre ++ r :: post ->
        decode_record r = Completed a ->
        oracle_call (mint_address a) MORALIS_API_KEY (env_after pre e0)
          = (Fulfilled resp, e1) ->
        usdPrice (raw resp) = Some p ->
        gt_zero p = true ->
        exists hs w' h,
          getTokenAccounts connection owner commitment w = (Returned hs, w')
          /\ hs !! length pre = Some h
          /\ holding_of r h
          /\ price h = Some p).
Proof.
  split.
  - intros mintAddress apiKey w resp e1 p Hcall Hp Hpos.
    destruct (fetchCoinPrice_run mintAddress apiKey w) as [tr Hf].
    rewrite Hcall in Hf. cbn [fst snd] in Hf. rewrite Hp in Hf.
    cbn [strict_eq_zero] in Hf. rewrite (gt_zero_not_zero p Hpos) in Hf.
    eauto.
  - intros connection owner commitment w resp0 e0 pre r post a resp e1 p
      Hl Hall Hval Hd Hcall Hp Hpos.
    destruct (getTokenAccounts_run _ _ _ _ _ _ Hl Hall)
      as (hs & w' & Hrun & _ & _ & Hnth).
    destruct (Hnth pre r post a Hval Hd) as (h & Hh & Hof & Hprice).
    rewrite Hcall in Hprice. cbn [fst] in Hprice. rewrite Hp in Hprice.
    cbn [strict_eq_zero] in Hprice.
    rewrite (gt_zero_not_zero p Hpos) in Hprice. eauto 10.
Qed.

(** C8. When the ledger answers with no record, [getTokenAccounts] returns
    the empty list; the ledger call is the only thing that happened, so no
    request went to the oracle. *)
Theorem no_accounts_no_oracle_calls
    (connection : Connection) (owner : PublicKey)
    (commitment : option Commitment) (w : World)
    (resp : TokenAccountsResponse) (e0 : Env) :
  connection_getTokenAccountsByOwner connection owner TOKEN_PROGRAM_ID
    commitment (env w) = (Fulfilled resp, e0) ->
  value resp = [] ->
  exists w',
    getTokenAccounts connection owner commitment w = (Returned [], w')
    /\ env w' = e0
    /\ trace w' = trace w ++ [EvGetTokenAccountsByOwner owner TOKEN_PROGRAM_ID
                                commitment]
    /\ filter is_oracle_call (trace w') = filter is_oracle_call (trace w).
Proof.
  intros Hl Hval.
  unfold getTokenAccounts, mbind, proc_bind, bind, await.
  rewrite Hl, Hval. cbn.
  eexists. split; [reflexivity|]. cbn.
  split; [reflexivity|]. split; [reflexivity|].
  rewrite filter_app. cbn. apply app_nil_r.
Qed.

(** [createPoolKeys], call by call. *)
Lemma createPoolKeys_run (poolId : PublicKey) (accountData : LiquidityStateV4)
    (layout : MinimalMarketLayoutV3) (w : World) :
  createPoolKeys poolId accountData layout w =
    (match BN_toNumber (st_baseDecimal accountData) with
     | Threw e => Thrown e
     | Completed bd =>
     match BN_toNumber (st_quoteDecimal accountData) with
     | Threw e => Thrown e
     | Completed qd =>
     match Liquidity_getAssociatedAuthority MAINNET_PROGRAM_ID_AmmV4 with
     | Threw e => Thrown e
     | Completed la =>
     match Market_getAssociatedAuthority (st_marketProgramId accountData)
             (st_marketId accountData) with
     | Threw e => Thrown e
     | Completed ma =>
         Returned
           {| id := poolId;
              baseMint := st_baseMint accountData;
              quoteMint := st_quoteMint accountData;
              lpMint := st_lpMint accountData;
              baseDecimals := bd;
              quoteDecimals := qd;
              lpDecimals := of_Z 5;
              version := of_Z 4;
              programId := MAINNET_PROGRAM_ID_AmmV4;
              authority := publicKey la;
              openOrders := st_openOrders accountData;
              targetOrders := st_targetOrders accountData;
              baseVault := st_baseVault accountData;
              quoteVault := st_quoteVault accountData;
              marketVersion := of_Z 3;
              marketProgramId := st_marketProgramId accountData;
              marketId := st_marketId accountData;
              marketAuthority := publicKey ma;
              marketBaseVault := st_baseVault accountData;
              marketQuoteVault := st_quoteVault accountData;
              marketBids := bids layout;
              marketAsks := asks layout;
              marketEventQueue := eventQueue layout;
              withdrawQueue := st_withdrawQueue accountData;
              lpVault := st_lpVault accountData;
              lookupTableAccount := PublicKey_default |}
     end end end end, w).
Proof.
  unfold createPoolKeys, RAYDIUM_LIQUIDITY_PROGRAM_ID_V4, mbind, proc_bind,
    bind, mret, proc_ret, ret, call.
  destruct (BN_toNumber (st_baseDecimal accountData)); [|reflexivity].
  destruct (BN_toNumber (st_quoteDecimal accountData)); [|reflexivity].
  destruct (Liquidity_getAssociatedAuthority MAINNET_PROGRAM_ID_AmmV4);
    [|reflexivity].
  destruct (Market_getAssociatedAuthority (st_marketProgramId accountData)
              (st_marketId accountData)); reflexivity.
Qed.

(** C7 (as amended). [createPoolKeys] has no effect and depends on its
    three arguments only: it leaves the world as it found it, ends the same
    way in every world and never ends the process. It returns a bundle
    exactly when the two [toNumber()] calls and the two authority
    derivations complete, and throws [e] exactly when the first of these
    four calls that throws, in the order of the source, throws [e].
    In a bundle it returns, the listed fields are the corresponding input
    fields, and [lpDecimals], [version], [marketVersion] and [programId]
    are 5, 4, 3 and the AMM program id. *)
Theorem createPoolKeys_copies_fields (poolId : PublicKey)
    (accountData : LiquidityStateV4)
    (minimalMarketLayoutV3 : MinimalMarketLayoutV3) (w : World) :
  (exists out,
      (forall w0,
          createPoolKeys poolId accountData minimalMarketLayoutV3 w0
          = (out, w0))
      /\ (forall code, out <> Exited code))
  /\ ((exists keys,
         createPoolKeys poolId accountData minimalMarketLayoutV3 w
         = (Returned keys, w))
      <-> (exists bd qd la ma,
             BN_toNumber (st_baseDecimal accountData) = Completed bd
             /\ BN_toNumber (st_quoteDecimal accountData) = Completed qd
             /\ Liquidity_getAssociatedAuthority MAINNET_PROGRAM_ID_AmmV4
                = Completed la
             /\ Market_getAssociatedAuthority
                  (st_marketProgramId accountData) (st_marketId accountData)
                = Completed ma))
  /\ (forall e,
        createPoolKeys poolId accountData minimalMarketLayoutV3 w
        = (Thrown e, w)
        <-> (BN_toNumber (st_baseDecimal accountData) = Threw e
             \/ (exists bd,
                   BN_toNumber (st_baseDecimal accountData) = Completed bd
                   /\ BN_toNumber (st_quoteDecimal accountData) = Threw e)
             \/ (exists bd qd,
                   BN_toNumber (st_baseDecimal accountData) = Completed bd
                   /\ BN_toNumber (st_quoteDecimal accountData)
                      = Completed qd
                   /\ Liquidity_getAssociatedAuthority
                        MAINNET_PROGRAM_ID_AmmV4 = Threw e)
             \/ (exists bd qd la,
                   BN_toNumber (st_baseDecimal accountData) = Completed bd
                   /\ BN_toNumber (st_quoteDecimal accountData)
                      = Completed qd
                   /\ Liquidity_getAssociatedAuthority
                        MAINNET_PROGRAM_ID_AmmV4 = Completed la
                   /\ Market_getAssociatedAuthority
                        (st_marketProgramId accountData)
                        (st_marketId accountData) = Threw e)))
  /\ (forall keys w',
        createPoolKeys poolId accountData minimalMarketLayoutV3 w
        = (Returned keys, w') ->
        (id keys = poolId
         /\ baseMint keys = st_baseMint accountData
         /\ quoteMint keys = st_quoteMint accountData
         /\ lpMint keys = st_lpMint accountData
         /\ openOrders keys = st_openOrders accountData
         /\ targetOrders keys = st_targetOrders accountData
         /\ baseVault keys = st_baseVault accountData
         /\ quoteVault keys = st_quoteVault accountData
         /\ marketProgramId keys = st_marketProgramId accountData
         /\ marketId keys = st_marketId accountData
         /\ withdrawQueue keys = st_withdrawQueue accountData
         /\ lpVault keys = st_lpVault accountData)
        /\ (lpDecimals keys = of_Z 5
            /\ version keys = of_Z 4
            /\ marketVersion keys = of_Z 3
            /\ programId keys = MAINNET_PROGRAM_ID_AmmV4)).
Proof.
  split; [|split; [|split]].
  - eexists. split.
    + intros w0. apply createPoolKeys_run.
    + intros code.
      destruct (BN_toNumber (st_baseDecimal accountData)); [|discriminate].
      destruct (BN_toNumber (st_quoteDecimal accountData)); [|discriminate].
      destruct (Liquidity_getAssociatedAuthority MAINNET_PROGRAM_ID_AmmV4);
        [|discriminate].
      destruct (Market_getAssociatedAuthority
                  (st_marketProgramId accountData) (st_marketId accountData));
        discriminate.
  - rewrite createPoolKeys_run.
    destruct (BN_toNumber (st_baseDecimal accountData)) as [bd|e1];
      [|split; [intros [k [=]]|intros (? & ? & ? & ? & [=] & _)]].
    destruct (BN_toNumber (st_quoteDecimal accountData)) as [qd|e2];
      [|split; [intros [k [=]]|intros (? & ? & ? & ? & _ & [=] & _)]].
    destruct (Liquidity_getAssociatedAuthority MAINNET_PROGRAM_ID_AmmV4)
      as [la|e3];
      [|split; [intros [k [=]]|intros (? & ? & ? & ? & _ & _ & [=] & _)]].
    destruct (Market_getAssociatedAuthority
                (st_marketProgramId accountData) (st_marketId accountData))
      as [ma|e4];
      [|split; [intros [k [=]]|intros (? & ? & ? & ? & _ & _ & _ & [=])]].
    split; eauto 10.
  - intros e. rewrite createPoolKeys_run.
    destruct (BN_toNumber (st_baseDecimal accountData)) as [bd|e1].
    2:{ split.
        - intros [= ->]. left. reflexivity.
        - intros [[= ->]|[(? & [=] & _)|[(? & ? & [=] & _)
                                         |(? & ? & ? & [=] & _)]]].
          reflexivity. }
    destruct (BN_toNumber (st_quoteDecimal accountData)) as [qd|e2].
    2:{ split.
        - intros [= ->]. right. left. eauto.
        - intros [[=]|[(? & _ & [= ->])|[(? & ? & _ & [=] & _)
                                        |(? & ? & ? & _ & [=] & _)]]].
          reflexivity. }
    destruct (Liquidity_getAssociatedAuthority MAINNET_PROGRAM_ID_AmmV4)
      as [la|e3].
    2:{ split.
        - intros [= ->]. right. right. left. eauto.
        - intros [[=]|[(? & _ & [=])|[(? & ? & _ & _ & [= ->])
                                     |(? & ? & ? & _ & _ & [=] & _)]]].
          reflexivity. }
    destruct (Market_getAssociatedAuthority
                (st_marketProgramId accountData) (st_marketId accountData))
      as [ma|e4].
    2:{ split.
        - intros [= ->]. right. right. right. eauto 10.
        - intros [[=]|[(? & _ & [=])|[(? & ? & _ & _ & [=])
                                     |(? & ? & ? & _ & _ & _ & [= ->])]]].
          reflexivity. }
    split.
    + intros [=].
    + intros [[=]|[(? & _ & [=])|[(? & ? & _ & _ & [=])
                                 |(? & ? & ? & _ & _ & _ & [=])]]].
  - intros keys w'. rewrite createPoolKeys_run.
    destruct (BN_toNumber (st_baseDecimal accountData)); [|discriminate].
    destruct (BN_toNumber (st_quoteDecimal accountData)); [|discriminate].
    destruct (Liquidity_getAssociatedAuthority MAINNET_PROGRAM_ID_AmmV4);
      [|discriminate].
    destruct (Market_getAssociatedAuthority
                (st_marketProgramId accountData) (st_marketId accountData));
      [|discriminate].
    intros [= <- _]. cbn. repeat split.
Qed.

(** C9. In a bundle [createPoolKeys] returns, [marketBaseVault] and
    [marketQuoteVault] are the pool state's own vaults; the market layout
    argument decides [marketBids], [marketAsks] and [marketEventQueue] and
    no other field: with another market layout the call returns as well,
    and every other field of the bundle is unchanged. *)
Theorem createPoolKeys_market_fields (poolId : PublicKey)
    (accountData : LiquidityStateV4)
    (minimalMarketLayoutV3 : MinimalMarketLayoutV3) (w w' : World)
    (keys : LiquidityPoolKeys) :
  createPoolKeys poolId accountData minimalMarketLayoutV3 w
  = (Returned keys, w') ->
  (marketBaseVault keys = st_baseVault accountData
   /\ marketQuoteVault keys = st_quoteVault accountData)
  /\ (marketBids keys = bids minimalMarketLayoutV3
      /\ marketAsks keys = asks minimalMarketLayoutV3
      /\ marketEventQueue keys = eventQueue minimalMarketLayoutV3)
  /\ (forall otherLayout : MinimalMarketLayoutV3,
        createPoolKeys poolId accountData otherLayout w =
          (Returned
             {| id := id keys;
                baseMint := baseMint keys;
                quoteMint := quoteMint keys;
                lpMint := lpMint keys;
                baseDecimals := baseDecimals keys;
                quoteDecimals := quoteDecimals keys;
                lpDecimals := lpDecimals keys;
                version := version keys;
                programId := programId keys;
                authority := authority keys;
                openOrders := openOrders keys;
                targetOrders := targetOrders keys;
                baseVault := baseVault keys;
                quoteVault := quoteVault keys;
                marketVersion := marketVersion keys;
                marketProgramId := marketProgramId keys;
                marketId := marketId keys;
                marketAuthority := marketAuthority keys;
                marketBaseVault := marketBaseVault keys;
                marketQuoteVault := marketQuoteVault keys;
                marketBids := bids otherLayout;
                marketAsks := asks otherLayout;
                marketEventQueue := eventQueue otherLayout;
                withdrawQueue := withdrawQueue keys;
                lpVault := lpVault keys;
                lookupTableAccount := lookupTableAccount keys |}, w')).
Proof.
  rewrite createPoolKeys_run.
  destruct (BN_toNumber (st_baseDecimal accountData)) eqn:Hb; [|discriminate].
  destruct (BN_toNumber (st_quoteDecimal accountData)) eqn:Hq;
    [|discriminate].
  destruct (Liquidity_getAssociatedAuthority MAINNET_PROGRAM_ID_AmmV4)
    eqn:Hl; [|discriminate].
  destruct (Market_getAssociatedAuthority
              (st_marketProgramId accountData) (st_marketId accountData))
    eqn:Hm; [|discriminate].
  intros [= <- <-]. cbn.
  split; [split; reflexivity|]. split; [repeat split|].
  intros otherLayout. rewrite createPoolKeys_run, Hb, Hq, Hl, Hm.
  reflexivity.
Qed.

End LiquidityFacts.
(* ===================================================================== *)
(** * Properties of the configuration loader                              *)
(* ===================================================================== *)

Section ConstantsFacts.
Context `{SdkTypes}.

Lemma includes_In (l : list string) (x : string) :
  includes l x = true <-> In x l.
Proof.
  unfold includes. rewrite existsb_exists. split.
  - intros (y & Hin & Heq). apply String.eqb_eq in Heq. now subst.
  - intros Hin. exists x. split; [exact Hin|apply String.eqb_refl].
Qed.

(** A setting that is present is returned as it is; nothing is logged. *)
Lemma retrieveEnvVariable_present (process_env : ProcessEnv)
    (name v : string) (w : World) :
  process_env !! name = Some v ->
  retrieveEnvVariable process_env name w = (Returned v, w).
Proof. intros Hv. unfold retrieveEnvVariable. now rewrite Hv. Qed.

(** With every setting present, the part of the module after the commitment
    check returns the exports and leaves the world as it was. *)
Lemma load_settings_returns (process_env : ProcessEnv)
    (level : Commitment) (w : World) :
  (forall name, In name required_settings -> is_Some (process_env !! name)) ->
  exists c,
    load_settings process_env level w = (Returned c, w)
    /\ COMMITMENT_LEVEL c = level
    /\ (forall v, process_env !! "MAX_SELL_RETRIES" = Some v ->
        MAX_SELL_RETRIES c = Number v)
    /\ (forall v, process_env !! "SELL_AFTER_GAIN_PERCENTAGE" = Some v ->
        SELL_AFTER_GAIN_PERCENTAGE c = parseFloat v).
Proof.
  intros Hall.
  assert (Hget : forall name, In name required_settings ->
            exists v, process_env !! name = Some v
              /\ forall w0, retrieveEnvVariable process_env name w0
                            = (Returned v, w0)).
  { intros name Hin. destruct (Hall name Hin) as [v Hv].
    exists v. split; [exact Hv|].
    intros w0. now apply retrieveEnvVariable_present. }
  unfold load_settings, mbind, proc_bind, bind.
  repeat match goal with
  | |- context [retrieveEnvVariable process_env ?n _] =>
      let v := fresh "v" in
      let Hv := fresh "Hv" in
      let Hr := fresh "Hr" in
      destruct (Hget n) as (v & Hv & Hr);
      [unfold required_settings; cbn; tauto|];
      rewrite Hr; clear Hr
  end.
  eexists. split; [reflexivity|]. cbn.
  split; [reflexivity|].
  split; intros x Hx; congruence.
Qed.

(** C6. With [COMMITMENT_LEVEL] set to a value outside
    [processed, confirmed, finalized], loading the module logs an error and
    ends the process with exit code 1: whatever would run after the import
    does not run, and the world has seen no ledger and no oracle call on the
    way. With a value of the set the check passes silently and loading goes
    on with the remaining settings, returning the exports when they are all
    present. *)
Theorem invalid_commitment_level_exits (process_env : ProcessEnv)
    (v : string) (w : World) :
  process_env !! "COMMITMENT_LEVEL" = Some v ->
  (~ In v ["processed"; "confirmed"; "finalized"] ->
   exists w',
     load_module process_env w = (Exited 1, w')
     /\ (forall (A : Type) (after : Exports -> Proc A),
           (load_module process_env ≫= after) w = (Exited 1, w'))
     /\ (exists msg,
           trace w' = trace w ++ [EvLoggerError [("COMMITMENT_LEVEL", v)] msg])
     /\ env w' = env w
     /\ filter is_ledger_call (trace w') = filter is_ledger_call (trace w)
     /\ filter is_oracle_call (trace w') = filter is_oracle_call (trace w))
  /\ (In v ["processed"; "confirmed"; "finalized"] ->
      load_module process_env w = load_settings process_env v w
      /\ ((forall name, In name required_settings ->
             is_Some (process_env !! name)) ->
          exists c, load_module process_env w = (Returned c, w)
                    /\ COMMITMENT_LEVEL c = v)).
Proof.
  intros Hv.
  assert (Hcheck : load_module process_env w =
            (if negb (includes possibleCommitments v) then
               (Exited 1,
                emit (EvLoggerError [("COMMITMENT_LEVEL", v)]
                        ("Invalid commitment level. Possible values are "
                         +:+ join ", " possibleCommitments)) w)
             else load_settings process_env v w)).
  { unfold load_module, load_commitment_level, mbind, proc_bind, bind.
    rewrite (retrieveEnvVariable_present _ _ _ _ Hv).
    destruct (negb (includes possibleCommitments v)); reflexivity. }
  split.
  - intros Hout.
    assert (Hinc : includes possibleCommitments v = false).
    { destruct (includes possibleCommitments v) eqn:E; [|reflexivity].
      apply includes_In in E. contradiction. }
    rewrite Hinc in Hcheck. cbn [negb] in Hcheck.
    eexists. split; [exact Hcheck|].
    split; [|split; [|split; [|split]]].
    + intros A after. unfold mbind, proc_bind, bind. now rewrite Hcheck.
    + eexists. reflexivity.
    + reflexivity.
    + cbn. rewrite filter_app. cbn. apply app_nil_r.
    + cbn. rewrite filter_app. cbn. apply app_nil_r.
  - intros Hin.
    apply (includes_In possibleCommitments) in Hin.
    rewrite Hin in Hcheck. cbn [negb] in Hcheck.
    split; [exact Hcheck|].
    intros Hall. rewrite Hcheck.
    destruct (load_settings_returns process_env v w Hall) as (c & Hc & Hl & _).
    eauto.
Qed.

End ConstantsFacts.

(* ===================================================================== *)
(** * Properties of the string to number conversions                      *)
(* ===================================================================== *)

Section RoundingFacts.

(** Rounding keeps a mantissa that is not negative that way, so the
    outcome of rounding is a zero, a finite number or an infinity. *)
Lemma shr_1_nonneg (mrs : shr_record) :
  (0 <= shr_m mrs)%Z -> (0 <= shr_m (shr_1 mrs))%Z.
Proof.
  destruct mrs as [m r s]. cbn.
  destruct m as [|[p|p|]|[p|p|]]; cbn; lia.
Qed.

Lemma iter_pos_shr_1_nonneg (n : positive) (mrs : shr_record) :
  (0 <= shr_m mrs)%Z -> (0 <= shr_m (SpecFloat.iter_pos shr_1 n mrs))%Z.
Proof.
  revert mrs. induction n as [n IH|n IH|]; intros mrs Hm; cbn.
  - apply IH, IH, shr_1_nonneg, Hm.
  - apply IH, IH, Hm.
  - apply shr_1_nonneg, Hm.
Qed.

Lemma shr_fexp_nonneg (m e : Z) (l : location) :
  (0 <= m)%Z -> (0 <= shr_m (fst (shr_fexp prec emax m e l)))%Z.
Proof.
  intros Hm. unfold shr_fexp, shr.
  assert (H0 : (0 <= shr_m (shr_record_of_loc m l))%Z).
  { destruct l as [|[]]; cbn; exact Hm. }
  destruct (fexp prec emax (Zdigits2 m + e) - e)%Z; cbn [fst];
    [exact H0| |exact H0].
  apply iter_pos_shr_1_nonneg, H0.
Qed.

Lemma round_nearest_even_nonneg (m : Z) (l : location) :
  (0 <= m)%Z -> (0 <= round_nearest_even m l)%Z.
Proof.
  intros Hm. destruct l as [|[]]; cbn; try lia.
  destruct (Z.even m); lia.
Qed.

Lemma binary_round_aux_not_nan (sx : bool) (mx ex : Z) (lx : location) :
  (0 <= mx)%Z -> isNaN (binary_round_aux prec emax sx mx ex lx) = false.
Proof.
  intros Hm. unfold binary_round_aux.
  pose proof (shr_fexp_nonneg mx ex lx Hm) as H1.
  destruct (shr_fexp prec emax mx ex lx) as [mrs' e']. cbn [fst] in H1.
  pose proof (shr_fexp_nonneg
                (round_nearest_even (shr_m mrs') (loc_of_shr_record mrs'))
                e' loc_Exact
                (round_nearest_even_nonneg _ _ H1)) as H2.
  destruct (shr_fexp prec emax _ e' loc_Exact) as [mrs'' e''].
  cbn [fst] in H2.
  destruct (shr_m mrs'') as [|m|m]; [reflexivity| |lia].
  destruct (e'' <=? emax - prec)%Z; reflexivity.
Qed.

Lemma binary_round_not_nan (sx : bool) (mx : positive) (ex : Z) :
  isNaN (binary_round prec emax sx mx ex) = false.
Proof.
  unfold binary_round.
  destruct (shl_align mx ex _) as [mz ez].
  apply binary_round_aux_not_nan. lia.
Qed.

Lemma round_mv_not_nan (neg : bool) (m : N) (e : Z) :
  isNaN (round_mv neg m e) = false.
Proof.
  unfold round_mv. destruct m as [|p]; [reflexivity|].
  destruct (0 <=? e)%Z eqn:He.
  - apply Z.leb_le in He.
    assert (Hpos : (0 < Z.pos p * 10 ^ e)%Z)
      by (apply Z.mul_pos_pos; [lia|apply Z.pow_pos_nonneg; lia]).
    unfold binary_normalize.
    destruct neg; cbn [cond_Zopp];
      destruct (Z.pos p * 10 ^ e)%Z as [|q|q]; cbn [Z.opp];
      try reflexivity; try lia; apply binary_round_not_nan.
  - apply Z.leb_gt in He.
    assert (Hd : (0 < 10 ^ (- e))%Z) by (apply Z.pow_pos_nonneg; lia).
    pose proof (Z.div_eucl_eq (Z.shiftl (Z.pos p) (55 + Z.log2_up (10 ^ (- e))))
                  (10 ^ (- e))) as Heq.
    pose proof (Z.div_pos (Z.shiftl (Z.pos p) (55 + Z.log2_up (10 ^ (- e))))
                  (10 ^ (- e))) as Hq.
    unfold Z.div in Hq.
    destruct (Z.div_eucl _ _) as [q r].
    apply binary_round_aux_not_nan. apply Hq; [|exact Hd].
    apply Z.shiftl_nonneg. lia.
Qed.

Lemma literal_value_not_nan (l : Literal) : isNaN (literal_value l) = false.
Proof. destruct l; [reflexivity|apply round_mv_not_nan]. Qed.

End RoundingFacts.

Section ScanningFacts.

Lemma code_eqb_eq (c : ascii) (n : N) :
  (code c =? n)%N = true -> c = ascii_of_N n.
Proof.
  intros Hc. apply N.eqb_eq in Hc. unfold code in Hc.
  rewrite <- Hc. symmetry. apply ascii_N_embedding.
Qed.

Lemma is_nil_true {A} (l : list A) : is_nil l = true <-> l = [].
Proof. destruct l; cbn; split; congruence. Qed.

Lemma is_nil_false {A} (l : list A) : is_nil l = false <-> l <> [].
Proof. destruct l; cbn; split; congruence. Qed.

(** *** White space *)

Lemma ws_lead_false (c1 : ascii) :
  ws_lead c1 = false ->
  ws1 c1 = false
  /\ (forall c2, ws2 c1 c2 = false)
  /\ (forall c2 c3, ws3 c1 c2 c3 = false).
Proof.
  unfold ws_lead, ws2, ws3. intros Hl.
  apply orb_false_iff in Hl as [H1 Hl].
  repeat (apply orb_false_iff in Hl as [Hl ?]).
  split; [exact H1|]. split; intros.
  - now rewrite Hl.
  - repeat match goal with H : (_ =? _)%N = false |- _ => rewrite H; clear H end.
    reflexivity.
Qed.

Lemma skip_ws_stuck (c : ascii) (t : list ascii) :
  ws_lead c = false -> skip_ws (c :: t) = c :: t.
Proof.
  intros Hl. destruct (ws_lead_false c Hl) as (H1 & H2 & H3).
  cbn. rewrite H1. destruct t as [|c2 t]; [reflexivity|]. rewrite H2.
  destruct t as [|c3 t]; [reflexivity|]. now rewrite H3.
Qed.

Lemma StrWhiteSpaceChar_lead (w : list ascii) :
  StrWhiteSpaceChar w -> exists c t, w = c :: t /\ ws_lead c = true.
Proof.
  destruct w as [|c1 [|c2 [|c3 [|c4 t]]]]; cbn; intros Hw; try contradiction.
  - exists c1, []. split; [reflexivity|]. unfold ws_lead. now rewrite Hw.
  - exists c1, [c2]. split; [reflexivity|]. unfold ws_lead, ws2 in *.
    apply andb_true_iff in Hw as [-> _]. apply orb_true_r.
  - exists c1, [c2; c3]. split; [reflexivity|]. unfold ws_lead, ws3 in *.
    destruct (code c1 =? 225)%N, (code c1 =? 226)%N, (code c1 =? 227)%N,
      (code c1 =? 239)%N; cbn in *;
      rewrite ?orb_true_r; try reflexivity; discriminate.
Qed.

Lemma StrWhiteSpace_stops (w : list ascii) :
  StrWhiteSpace w -> stops ws_lead w -> w = [].
Proof.
  intros [|w0 s Hw0 Hs]; [reflexivity|]. intros Hstop.
  destruct (StrWhiteSpaceChar_lead w0 Hw0) as (c & t & -> & Hl).
  cbn in Hstop. congruence.
Qed.

Lemma skip_ws_char (w s : list ascii) :
  StrWhiteSpaceChar w -> skip_ws (w ++ s) = skip_ws s.
Proof.
  destruct w as [|c1 [|c2 [|c3 [|c4 t]]]]; cbn -[ws1 ws2 ws3];
    intros Hw; try contradiction.
  - now rewrite Hw.
  - assert (H1 : ws1 c1 = false).
    { unfold ws2 in Hw. apply andb_true_iff in Hw as [Hc _].
      apply code_eqb_eq in Hc. now subst. }
    now rewrite H1, Hw.
  - assert (H12 : ws1 c1 = false /\ ws2 c1 c2 = false).
    { unfold ws1, ws2, ws3 in *.
      destruct (code c1 =? 225)%N eqn:E1;
        [apply code_eqb_eq in E1; subst; now cbn|].
      destruct (code c1 =? 226)%N eqn:E2;
        [apply code_eqb_eq in E2; subst; now cbn|].
      destruct (code c1 =? 227)%N eqn:E3;
        [apply code_eqb_eq in E3; subst; now cbn|].
      destruct (code c1 =? 239)%N eqn:E4;
        [apply code_eqb_eq in E4; subst; now cbn|].
      cbn in Hw. discriminate. }
    destruct H12 as [H1 H2]. now rewrite H1, H2, Hw.
Qed.

Lemma skip_ws_space (w s : list ascii) :
  StrWhiteSpace w -> skip_ws (w ++ s) = skip_ws s.
Proof.
  induction 1 as [|w0 s0 Hw0 _ IH]; [reflexivity|].
  rewrite <- app_assoc, skip_ws_char by exact Hw0. exact IH.
Qed.

Lemma skip_ws_all (w : list ascii) : StrWhiteSpace w -> skip_ws w = [].
Proof.
  intros Hw. rewrite <- (app_nil_r w). now rewrite skip_ws_space.
Qed.

Lemma skip_ws_sound_bounded (n : nat) (s : list ascii) :
  (length s <= n)%nat ->
  exists w, StrWhiteSpace w /\ s = w ++ skip_ws s.
Proof.
  revert s. induction n as [|n IH]; intros s Hlen.
  - destruct s; [|cbn in Hlen; lia]. exists []. split; [constructor|easy].
  - destruct s as [|c1 s1]; [exists []; split; [constructor|easy]|].
    cbn -[ws1 ws2 ws3]. cbn in Hlen.
    destruct (ws1 c1) eqn:H1.
    { destruct (IH s1) as (w & Hw & Heq); [lia|].
      exists ([c1] ++ w). split; [constructor; [exact H1|exact Hw]|].
      cbn. now rewrite <- Heq. }
    destruct s1 as [|c2 s2];
      [exists []; split; [constructor|reflexivity]|].
    cbn in Hlen.
    destruct (ws2 c1 c2) eqn:H2.
    { destruct (IH s2) as (w & Hw & Heq); [lia|].
      exists ([c1; c2] ++ w). split; [constructor; [exact H2|exact Hw]|].
      cbn. now rewrite <- Heq. }
    destruct s2 as [|c3 s3];
      [exists []; split; [constructor|reflexivity]|].
    cbn in Hlen.
    destruct (ws3 c1 c2 c3) eqn:H3.
    { destruct (IH s3) as (w & Hw & Heq); [lia|].
      exists ([c1; c2; c3] ++ w).
      split; [constructor; [exact H3|exact Hw]|].
      cbn. now rewrite <- Heq. }
    exists []. split; [constructor|reflexivity].
Qed.

Lemma skip_ws_sound (s : list ascii) :
  exists w, StrWhiteSpace w /\ s = w ++ skip_ws s.
Proof. apply (skip_ws_sound_bounded (length s)). lia. Qed.

(** *** Runs of digits *)

Lemma span_spec (p : ascii -> bool) (s : list ascii) :
  s = fst (span p s) ++ snd (span p s)
  /\ List.Forall (fun c => p c = true) (fst (span p s))
  /\ stops p (snd (span p s)).
Proof.
  induction s as [|c s (IH1 & IH2 & IH3)]; cbn.
  - repeat split. constructor.
  - destruct (p c) eqn:Hc.
    + destruct (span p s) as [run rest]. cbn in *.
      split; [now rewrite <- IH1|]. split; [now constructor|exact IH3].
    + cbn. split; [reflexivity|]. split; [constructor|exact Hc].
Qed.

Lemma span_app (p : ascii -> bool) (ds rest : list ascii) :
  List.Forall (fun c => p c = true) ds -> stops p rest ->
  span p (ds ++ rest) = (ds, rest).
Proof.
  intros Hds Hrest. induction Hds as [|c ds Hc _ IH]; cbn.
  - destruct rest as [|c rest]; [reflexivity|]. cbn in *.
    now rewrite Hrest.
  - now rewrite Hc, IH.
Qed.

Lemma span_app_nonempty (p : ascii -> bool) (ds rest : list ascii) :
  Digits p ds -> fst (span p (ds ++ rest)) <> [].
Proof.
  intros [Hne Hds]. destruct Hds as [|c ds Hc _]; [contradiction|].
  cbn. rewrite Hc. destruct (span p (ds ++ rest)). discriminate.
Qed.

Lemma span_Digits (p : ascii -> bool) (s : list ascii) :
  fst (span p s) <> [] -> Digits p (fst (span p s)).
Proof. intros Hne. split; [exact Hne|apply span_spec]. Qed.

(** *** Signs and exponents *)

Lemma parse_sign_sound (s : list ascii) :
  exists sg, optional Sign sg /\ s = sg ++ snd (parse_sign s).
Proof.
  destruct s as [|c s]; cbn; [exists []; split; [now left|reflexivity]|].
  destruct (code c =? 43)%N eqn:Hp.
  { apply code_eqb_eq in Hp. subst c.
    exists ["+"%char]. split; [right; constructor|reflexivity]. }
  destruct (code c =? 45)%N eqn:Hm.
  { apply code_eqb_eq in Hm. subst c.
    exists ["-"%char]. split; [right; constructor|reflexivity]. }
  exists []. split; [now left|reflexivity].
Qed.

Lemma parse_exponent_sound (s : list ascii) :
  exists e, optional ExponentPart e /\ s = e ++ snd (parse_exponent s).
Proof.
  assert (Hnone : exists e, optional ExponentPart e /\ s = e ++ s)
    by (exists []; split; [now left|reflexivity]).
  destruct s as [|c s1]; cbn; [exact Hnone|].
  destruct (is_exponent_indicator c) eqn:Hc; [|exact Hnone].
  destruct (parse_sign_sound s1) as (sg & Hsg & Hs1).
  destruct (parse_sign s1) as [neg s2]. cbn [snd] in Hs1.
  pose proof (span_spec is_digit s2) as (Hs2 & Hds & _).
  destruct (span is_digit s2) as [ds s3]. cbn [fst snd] in *.
  destruct (is_nil ds) eqn:Hnil; [exact Hnone|]. cbn [snd].
  exists (c :: sg ++ ds). split.
  - right. constructor; [exact Hc|exact Hsg|].
    split; [now apply is_nil_false|exact Hds].
  - cbn. rewrite <- app_assoc, <- Hs2, <- Hs1. reflexivity.
Qed.

Lemma strip_prefix_sound (p s rest : list ascii) :
  strip_prefix p s = Some rest -> s = p ++ rest.
Proof.
  revert s. induction p as [|a p IH]; intros s; cbn.
  - now intros [= ->].
  - destruct s as [|b s]; [discriminate|].
    destruct (code a =? code b)%N eqn:Hab; [|discriminate].
    intros Hs. apply IH in Hs. subst s.
    apply code_eqb_eq in Hab. unfold code in Hab.
    rewrite ascii_N_embedding in Hab. now subst.
Qed.

Lemma strip_prefix_app (p rest : list ascii) :
  strip_prefix p (p ++ rest) = Some rest.
Proof.
  induction p as [|a p IH]; cbn; [reflexivity|]. now rewrite N.eqb_refl.
Qed.

(** *** Decimal literals: what the parser takes is a literal *)

Lemma parse_unsigned_decimal_sound (neg : bool) (s : list ascii)
    (l : Literal) (rest : list ascii) :
  parse_unsigned_decimal neg s = Some (l, rest) ->
  exists u, StrUnsignedDecimalLiteral u /\ s = u ++ rest.
Proof.
  unfold parse_unsigned_decimal.
  destruct (strip_prefix Infinity_chars s) as [r|] eqn:Hinf.
  { intros [= _ <-]. apply strip_prefix_sound in Hinf.
    exists Infinity_chars. split; [constructor|exact Hinf]. }
  pose proof (span_spec is_digit s) as (Hs & Hip & _).
  destruct (span is_digit s) as [ip s1]. cbn [fst snd] in *.
  destruct s1 as [|c s2].
  { destruct (is_nil ip) eqn:Hnil; [discriminate|]. intros [= _ <-].
    exists (ip ++ []). split; [|now rewrite !app_nil_r in *].
    apply SUDL_int; [split; [now apply is_nil_false|exact Hip]|now left]. }
  destruct (code c =? 46)%N eqn:Hdot.
  - apply code_eqb_eq in Hdot. subst c.
    pose proof (span_spec is_digit s2) as (Hs2 & Hfp & _).
    destruct (span is_digit s2) as [fp s3]. cbn [fst snd] in *.
    destruct (is_nil ip && is_nil fp) eqn:Hnil; [discriminate|].
    destruct (parse_exponent_sound s3) as (e & He & Hs3).
    destruct (parse_exponent s3) as [z s4]. cbn [snd] in Hs3.
    intros [= _ <-].
    destruct (is_nil ip) eqn:Hi.
    + apply is_nil_true in Hi. subst ip. cbn in Hnil.
      exists ("."%char :: fp ++ e). split.
      * apply SUDL_dot_frac; [|exact He].
        split; [now apply is_nil_false|exact Hfp].
      * cbn in *. rewrite <- app_assoc, <- Hs3, <- Hs2. exact Hs.
    + exists (ip ++ "."%char :: fp ++ e). split.
      * apply SUDL_int_dot; [split; [now apply is_nil_false|exact Hip]| |exact He].
        destruct fp as [|d fp]; [now left|right].
        split; [discriminate|exact Hfp].
      * rewrite <- !app_assoc. cbn. rewrite <- app_assoc, <- Hs3, <- Hs2.
        exact Hs.
  - destruct (is_nil ip) eqn:Hi; [discriminate|].
    destruct (parse_exponent_sound (c :: s2)) as (e & He & Hs3).
    destruct (parse_exponent (c :: s2)) as [z s4]. cbn [snd] in Hs3.
    intros [= _ <-].
    exists (ip ++ e). split.
    + apply SUDL_int; [split; [now apply is_nil_false|exact Hip]|exact He].
    + rewrite <- app_assoc, <- Hs3. exact Hs.
Qed.

Lemma parse_decimal_sound (s : list ascii) (l : Literal)
    (rest : list ascii) :
  parse_decimal s = Some (l, rest) ->
  exists p, StrDecimalLiteral p /\ s = p ++ rest.
Proof.
  unfold parse_decimal.
  destruct (parse_sign_sound s) as (sg & Hsg & Hs).
  destruct (parse_sign s) as [neg s']. cbn [snd] in Hs.
  intros Hp. apply parse_unsigned_decimal_sound in Hp as (u & Hu & Hs').
  exists (sg ++ u). split; [now constructor|].
  rewrite <- app_assoc, <- Hs'. exact Hs.
Qed.

(** *** Character classes

    Facts about one character are settled by looking at all 256 of them. *)

Ltac by_char c :=
  destruct c as [[] [] [] [] [] [] [] []]; vm_compute;
  repeat split; intros; congruence.

Lemma digit_char (c : ascii) :
  is_digit c = true ->
  not_a_sign c /\ not_a_radix c
  /\ (code c =? 46)%N = false /\ (code c =? 73)%N = false
  /\ is_exponent_indicator c = false /\ lit_char c = true.
Proof. unfold not_a_sign, not_a_radix. by_char c. Qed.

Lemma exponent_char (c : ascii) :
  is_exponent_indicator c = true ->
  not_a_radix c /\ (code c =? 46)%N = false /\ is_digit c = false.
Proof. unfold not_a_radix. by_char c. Qed.

Lemma outside_char (c : ascii) :
  lit_char c = false ->
  not_a_sign c /\ not_a_radix c
  /\ (code c =? 46)%N = false /\ (code c =? 73)%N = false
  /\ is_exponent_indicator c = false /\ is_digit c = false
  /\ is_hex_digit c = false /\ is_octal_digit c = false
  /\ is_binary_digit c = false.
Proof. unfold not_a_sign, not_a_radix. by_char c. Qed.

Lemma lit_char_not_ws (c : ascii) : lit_char c = true -> ws_lead c = false.
Proof. by_char c. Qed.

Lemma ws_lead_outside (c : ascii) : ws_lead c = true -> lit_char c = false.
Proof. by_char c. Qed.

(** *** Decimal literals: a literal at the head is taken *)

Lemma Digits_head (p : ascii -> bool) (ds : list ascii) :
  Digits p ds -> exists c t, ds = c :: t /\ p c = true.
Proof.
  intros [Hne Hds]. destruct Hds as [|c t Hc _]; [contradiction|]. eauto.
Qed.

Lemma parse_sign_other (c : ascii) (t : list ascii) :
  not_a_sign c -> parse_sign (c :: t) = (false, c :: t).
Proof. intros [Hp Hm]. cbn. now rewrite Hp, Hm. Qed.

Lemma parse_sign_Sign (sg t : list ascii) :
  Sign sg -> exists neg, parse_sign (sg ++ t) = (neg, t).
Proof. intros [|]; cbn; eauto. Qed.

Lemma strip_Infinity_other (c : ascii) (t : list ascii) :
  (code c =? 73)%N = false -> strip_prefix Infinity_chars (c :: t) = None.
Proof.
  intros Hc. unfold Infinity_chars.
  change (chars "Infinity") with ("I"%char :: chars "nfinity").
  cbn [strip_prefix]. change (code "I") with 73%N.
  now rewrite N.eqb_sym, Hc.
Qed.

(** The head of an unsigned decimal literal. *)
Lemma SUDL_head (u : list ascii) :
  StrUnsignedDecimalLiteral u ->
  exists c t, u = c :: t
    /\ (is_digit c = true \/ c = "."%char \/ c = "I"%char).
Proof.
  intros [|i f e Hi _ _|f e _ _|i e Hi _].
  - unfold Infinity_chars. cbn. eauto 6.
  - destruct (Digits_head _ _ Hi) as (c & t & -> & Hc). cbn. eauto 6.
  - cbn. eauto 6.
  - destruct (Digits_head _ _ Hi) as (c & t & -> & Hc). cbn. eauto 6.
Qed.

Lemma SUDL_head_not_sign (u : list ascii) :
  StrUnsignedDecimalLiteral u ->
  exists c t, u = c :: t /\ not_a_sign c.
Proof.
  intros Hu. destruct (SUDL_head u Hu) as (c & t & -> & [Hc|[->| ->]]).
  - exists c, t. split; [reflexivity|]. now apply digit_char.
  - eexists _, _. split; [reflexivity|]. now split.
  - eexists _, _. split; [reflexivity|]. now split.
Qed.

(** With digits at the head, [parse_unsigned_decimal] finds a literal. *)
Lemma parse_unsigned_decimal_digits (neg : bool) (s : list ascii) :
  fst (span is_digit s) <> [] -> parse_unsigned_decimal neg s <> None.
Proof.
  unfold parse_unsigned_decimal. intros Hip.
  destruct (strip_prefix Infinity_chars s); [discriminate|].
  destruct (span is_digit s) as [ip s1]. cbn [fst] in Hip.
  apply is_nil_false in Hip.
  destruct s1 as [|c s2]; [now rewrite Hip|].
  destruct (code c =? 46)%N.
  - destruct (span is_digit s2) as [fp s3]. rewrite Hip. cbn [andb].
    now destruct (parse_exponent s3).
  - rewrite Hip. now destruct (parse_exponent (c :: s2)).
Qed.

Lemma parse_unsigned_decimal_complete (neg : bool) (u r : list ascii) :
  StrUnsignedDecimalLiteral u -> parse_unsigned_decimal neg (u ++ r) <> None.
Proof.
  intros [|i f e Hi _ _|f e Hf _|i e Hi _].
  - unfold parse_unsigned_decimal. now rewrite strip_prefix_app.
  - rewrite <- app_assoc.
    apply parse_unsigned_decimal_digits, span_app_nonempty, Hi.
  - unfold parse_unsigned_decimal. cbn [app].
    rewrite strip_Infinity_other by reflexivity.
    change (span is_digit ("."%char :: (f ++ e) ++ r))
      with (@nil ascii, "."%char :: (f ++ e) ++ r).
    change (code "." =? 46)%N with true. cbv iota.
    rewrite <- app_assoc.
    pose proof (span_app_nonempty is_digit f (e ++ r) Hf) as Hfp.
    destruct (span is_digit (f ++ e ++ r)) as [fp s3]. cbn [fst] in Hfp.
    apply is_nil_false in Hfp. rewrite Hfp. cbn [is_nil andb].
    now destruct (parse_exponent s3).
  - rewrite <- app_assoc.
    apply parse_unsigned_decimal_digits, span_app_nonempty, Hi.
Qed.

Lemma parse_decimal_complete (p r : list ascii) :
  StrDecimalLiteral p -> parse_decimal (p ++ r) <> None.
Proof.
  intros [sg u Hsg Hu]. unfold parse_decimal. rewrite <- app_assoc.
  destruct Hsg as [->|Hsg].
  - destruct (SUDL_head_not_sign u Hu) as (c & t & -> & Hc).
    cbn [app]. rewrite parse_sign_other by exact Hc.
    now apply (parse_unsigned_decimal_complete false (c :: t) r).
  - destruct (parse_sign_Sign sg (u ++ r) Hsg) as [neg ->].
    now apply parse_unsigned_decimal_complete.
Qed.

(** *** Decimal literals: a literal followed by no literal character is
    taken whole *)

Lemma stops_outside (p : ascii -> bool) (r : list ascii) :
  (forall c, lit_char c = false -> p c = false) ->
  stops lit_char r -> stops p r.
Proof. intros Hp. destruct r as [|c r]; cbn; [trivial|apply Hp]. Qed.

Lemma stops_digit (r : list ascii) : stops lit_char r -> stops is_digit r.
Proof. apply stops_outside. intros c Hc. now apply outside_char. Qed.

Lemma parse_exponent_stops (r : list ascii) :
  stops lit_char r -> parse_exponent r = (0%Z, r).
Proof.
  destruct r as [|c r]; cbn; [reflexivity|]. intros Hc.
  apply outside_char in Hc as (_ & _ & _ & _ & -> & _). reflexivity.
Qed.

Lemma parse_exponent_exact (e r : list ascii) :
  optional ExponentPart e -> stops lit_char r ->
  snd (parse_exponent (e ++ r)) = r.
Proof.
  intros [->|He] Hr; [cbn [app]; now rewrite parse_exponent_stops|].
  destruct He as [c sg ds Hc Hsg Hds].
  cbn [app parse_exponent]. rewrite Hc, <- app_assoc.
  assert (Hsign : exists neg, parse_sign (sg ++ ds ++ r) = (neg, ds ++ r)).
  { destruct Hsg as [->|Hsg]; [|now apply parse_sign_Sign].
    destruct (Digits_head _ _ Hds) as (d & t & -> & Hd).
    exists false. cbn [app]. apply parse_sign_other. now apply digit_char. }
  destruct Hsign as [neg ->].
  rewrite (span_app is_digit ds r); [|apply Hds|now apply stops_digit].
  destruct Hds as [Hne _]. apply is_nil_false in Hne. now rewrite Hne.
Qed.

Lemma stops_exponent_digit (e r : list ascii) :
  optional ExponentPart e -> stops lit_char r -> stops is_digit (e ++ r).
Proof.
  intros [->|[c sg ds Hc _ _]] Hr; [now apply stops_digit|].
  cbn. now apply exponent_char.
Qed.

Lemma optional_digits_Forall (f : list ascii) :
  optional DecimalDigits f -> List.Forall (fun c => is_digit c = true) f.
Proof. intros [->|[_ Hf]]; [constructor|exact Hf]. Qed.

Lemma parse_unsigned_decimal_exact (neg : bool) (u r : list ascii) :
  StrUnsignedDecimalLiteral u -> stops lit_char r ->
  exists l, parse_unsigned_decimal neg (u ++ r) = Some (l, r).
Proof.
  intros Hu Hr. unfold parse_unsigned_decimal.
  destruct Hu as [|i f e Hi Hf He|f e Hf He|i e Hi He].
  - rewrite strip_prefix_app. eauto.
  - destruct (Digits_head _ _ Hi) as (d & t & Hit & Hd).
    assert (Hinf : strip_prefix Infinity_chars
                     ((i ++ "."%char :: f ++ e) ++ r) = None).
    { rewrite Hit. cbn [app]. apply strip_Infinity_other.
      now apply digit_char. }
    rewrite Hinf, <- app_assoc.
    rewrite (span_app is_digit i); [|apply Hi|reflexivity].
    cbn [app]. change (code "." =? 46)%N with true. cbv iota.
    rewrite <- app_assoc.
    rewrite (span_app is_digit f);
      [|now apply optional_digits_Forall|now apply stops_exponent_digit].
    destruct Hi as [Hne _]. apply is_nil_false in Hne. rewrite Hne.
    cbn [andb].
    pose proof (parse_exponent_exact e r He Hr) as Hex.
    destruct (parse_exponent (e ++ r)) as [z s4]. cbn [snd] in Hex.
    subst s4. eauto.
  - cbn [app]. rewrite strip_Infinity_other by reflexivity.
    change (span is_digit ("."%char :: (f ++ e) ++ r))
      with (@nil ascii, "."%char :: (f ++ e) ++ r).
    change (code "." =? 46)%N with true. cbv iota.
    rewrite <- app_assoc.
    rewrite (span_app is_digit f);
      [|apply Hf|now apply stops_exponent_digit].
    destruct Hf as [Hne _]. apply is_nil_false in Hne. rewrite Hne.
    cbn [is_nil andb].
    pose proof (parse_exponent_exact e r He Hr) as Hex.
    destruct (parse_exponent (e ++ r)) as [z s4]. cbn [snd] in Hex.
    subst s4. eauto.
  - destruct (Digits_head _ _ Hi) as (d & t & Hit & Hd).
    assert (Hinf : strip_prefix Infinity_chars ((i ++ e) ++ r) = None).
    { rewrite Hit. cbn [app]. apply strip_Infinity_other.
      now apply digit_char. }
    rewrite Hinf, <- app_assoc.
    rewrite (span_app is_digit i);
      [|apply Hi|now apply stops_exponent_digit].
    destruct Hi as [Hne _]. apply is_nil_false in Hne. rewrite Hne.
    pose proof (parse_exponent_exact e r He Hr) as Hex.
    destruct (e ++ r) as [|c s2] eqn:Her.
    + cbn in Hex. subst r. eauto.
    + assert (Hdot : (code c =? 46)%N = false).
      { destruct He as [->|Hep].
        - cbn in Her. subst r. cbn in Hr. now apply outside_char.
        - inversion Hep as [c0 sg ds Hc0 _ _ Hee]. subst e.
          cbn in Her. injection Her as <- _. now apply exponent_char. }
      rewrite Hdot.
      destruct (parse_exponent (c :: s2)) as [z s4]. cbn [snd] in Hex.
      subst s4. eauto.
Qed.

Lemma parse_decimal_exact (p r : list ascii) :
  StrDecimalLiteral p -> stops lit_char r ->
  exists l, parse_decimal (p ++ r) = Some (l, r).
Proof.
  intros [sg u Hsg Hu] Hr. unfold parse_decimal. rewrite <- app_assoc.
  destruct Hsg as [->|Hsg].
  - destruct (SUDL_head_not_sign u Hu) as (c & t & Hut & Hc).
    assert (Hsign : parse_sign (u ++ r) = (false, u ++ r))
      by (rewrite Hut; cbn [app]; now apply parse_sign_other).
    cbn [app]. rewrite Hsign.
    now apply parse_unsigned_decimal_exact.
  - destruct (parse_sign_Sign sg (u ++ r) Hsg) as [neg ->].
    now apply parse_unsigned_decimal_exact.
Qed.

(** *** Non-decimal integer literals *)

Lemma parse_non_decimal_sound (s : list ascii) (l : Literal)
    (rest : list ascii) :
  parse_non_decimal s = Some (l, rest) ->
  exists p, NonDecimalIntegerLiteral p /\ s = p ++ rest.
Proof.
  unfold parse_non_decimal, radix_of.
  destruct s as [|z [|c s']]; try discriminate.
  destruct (code z =? 48)%N eqn:Hz; [|discriminate].
  apply code_eqb_eq in Hz. subst z.
  destruct ((code c =? 120) || (code c =? 88))%N eqn:Hx.
  { pose proof (span_spec is_hex_digit s') as (Hs & Hds & _).
    destruct (span is_hex_digit s') as [ds r]. cbn [fst snd] in *.
    destruct (is_nil ds) eqn:Hnil; [discriminate|]. intros [= _ <-].
    exists ("0"%char :: c :: ds). split; [|cbn; now rewrite <- Hs].
    apply NDIL_hex; [|split; [now apply is_nil_false|exact Hds]].
    apply orb_true_iff in Hx as [Hx|Hx]; apply code_eqb_eq in Hx; auto. }
  destruct ((code c =? 111) || (code c =? 79))%N eqn:Ho.
  { pose proof (span_spec is_octal_digit s') as (Hs & Hds & _).
    destruct (span is_octal_digit s') as [ds r]. cbn [fst snd] in *.
    destruct (is_nil ds) eqn:Hnil; [discriminate|]. intros [= _ <-].
    exists ("0"%char :: c :: ds). split; [|cbn; now rewrite <- Hs].
    apply NDIL_octal; [|split; [now apply is_nil_false|exact Hds]].
    apply orb_true_iff in Ho as [Ho|Ho]; apply code_eqb_eq in Ho; auto. }
  destruct ((code c =? 98) || (code c =? 66))%N eqn:Hb; [|discriminate].
  pose proof (span_spec is_binary_digit s') as (Hs & Hds & _).
  destruct (span is_binary_digit s') as [ds r]. cbn [fst snd] in *.
  destruct (is_nil ds) eqn:Hnil; [discriminate|]. intros [= _ <-].
  exists ("0"%char :: c :: ds). split; [|cbn; now rewrite <- Hs].
  apply NDIL_binary; [|split; [now apply is_nil_false|exact Hds]].
  apply orb_true_iff in Hb as [Hb|Hb]; apply code_eqb_eq in Hb; auto.
Qed.

Lemma parse_non_decimal_radix (c : ascii) (base : N) (is_dig : ascii -> bool)
    (ds r : list ascii) :
  radix_of c = Some (base, is_dig) ->
  (forall c', lit_char c' = false -> is_dig c' = false) ->
  Digits is_dig ds -> stops lit_char r ->
  exists l, parse_non_decimal (("0"%char :: c :: ds) ++ r) = Some (l, r).
Proof.
  intros Hc Hout [Hne Hds] Hr. unfold parse_non_decimal. cbn [app].
  change (code "0" =? 48)%N with true. cbv iota. rewrite Hc.
  rewrite span_app; [|exact Hds|now apply (stops_outside _ r)].
  apply is_nil_false in Hne. rewrite Hne. eauto.
Qed.

Lemma parse_non_decimal_exact (p r : list ascii) :
  NonDecimalIntegerLiteral p -> stops lit_char r ->
  exists l, parse_non_decimal (p ++ r) = Some (l, r).
Proof.
  intros Hp Hr.
  destruct Hp as [x ds [-> | ->] Hds|o ds [-> | ->] Hds|b ds [-> | ->] Hds];
    (eapply parse_non_decimal_radix;
     [reflexivity
     |intros c Hc; now apply outside_char
     |exact Hds
     |exact Hr]).
Qed.

(** After a leading [0], a decimal literal goes on with no radix letter. *)
Lemma StrDecimalLiteral_second (p r : list ascii) (c : ascii)
    (t : list ascii) :
  StrDecimalLiteral p -> stops lit_char r ->
  p ++ r = "0"%char :: c :: t -> not_a_radix c.
Proof.
  intros Hp Hr Hpr.
  assert (Hdigits : forall (ds rest : list ascii),
             List.Forall (fun c => is_digit c = true) ds ->
             (forall c' t', rest = c' :: t' -> not_a_radix c') ->
             ds ++ rest = c :: t -> not_a_radix c).
  { intros ds rest Hds Hrest Heq. destruct Hds as [|d ds Hd _].
    - now apply (Hrest c t).
    - injection Heq as -> _. now apply digit_char. }
  assert (Hexp : forall e, optional ExponentPart e ->
             forall c' t', e ++ r = c' :: t' -> not_a_radix c').
  { intros e He c' t' Heq. destruct He as [->|Hep].
    - cbn in Heq. subst r. cbn in Hr. now apply outside_char.
    - inversion Hep as [c0 sg ds Hc0 _ _ Hee]. subst e.
      injection Heq as <- _. now apply exponent_char. }
  destruct Hp as [sg u Hsg Hu].
  destruct Hsg as [->|Hsg];
    [|inversion Hsg; subst sg; discriminate Hpr].
  cbn [app] in Hpr.
  destruct Hu as [|i f e [_ Hi] _ He|f e _ _|i e [Hne Hi] He].
  - unfold Infinity_chars in Hpr. cbn in Hpr. discriminate Hpr.
  - rewrite <- app_assoc in Hpr.
    destruct Hi as [|d i Hd Hi]; [discriminate Hpr|].
    injection Hpr as _ Hpr.
    apply (Hdigits i ("."%char :: (f ++ e) ++ r) Hi); [|exact Hpr].
    intros c' t' [= <- _]. now vm_compute.
  - discriminate Hpr.
  - rewrite <- app_assoc in Hpr.
    destruct Hi as [|d i Hd Hi]; [contradiction|].
    injection Hpr as _ Hpr.
    apply (Hdigits i (e ++ r) Hi); [|exact Hpr]. now apply Hexp.
Qed.

Lemma parse_non_decimal_decimal (p r : list ascii) :
  StrDecimalLiteral p -> stops lit_char r ->
  parse_non_decimal (p ++ r) = None.
Proof.
  intros Hp Hr. unfold parse_non_decimal, radix_of.
  destruct (p ++ r) as [|z [|c t]] eqn:Heq; try reflexivity.
  destruct (code z =? 48)%N eqn:Hz; [|reflexivity].
  apply code_eqb_eq in Hz. subst z.
  destruct (StrDecimalLiteral_second p r c t Hp Hr Heq) as (-> & -> & ->).
  reflexivity.
Qed.

(** *** What [Number] and [parseFloat] accept *)

Lemma StrWhiteSpace_boundary (w : list ascii) :
  StrWhiteSpace w -> stops lit_char w.
Proof.
  intros [|w0 s Hw0 _]; [exact I|].
  destruct (StrWhiteSpaceChar_lead w0 Hw0) as (c & t & -> & Hc).
  cbn. now apply ws_lead_outside.
Qed.

Lemma StrDecimalLiteral_head (p : list ascii) :
  StrDecimalLiteral p -> exists c t, p = c :: t /\ lit_char c = true.
Proof.
  intros [sg u Hsg Hu].
  destruct Hsg as [->|Hsg]; [|inversion Hsg; cbn; eauto].
  destruct (SUDL_head u Hu) as (c & t & -> & [Hc|[-> | ->]]);
    cbn [app]; eexists _, _; (split; [reflexivity|]);
    [now apply digit_char|reflexivity|reflexivity].
Qed.

Lemma StrNumericLiteral_head (l : list ascii) :
  StrNumericLiteral l -> exists c t, l = c :: t /\ lit_char c = true.
Proof.
  intros [Hd|Hn]; [now apply StrDecimalLiteral_head|].
  destruct Hn; cbn; eauto.
Qed.

Lemma skip_ws_literal (c : ascii) (t : list ascii) :
  lit_char c = true -> skip_ws (c :: t) = c :: t.
Proof. intros Hc. apply skip_ws_stuck. now apply lit_char_not_ws. Qed.

Lemma string_to_number_sound (s : list ascii) :
  isNaN (string_to_number s) = false -> StringNumericLiteral s.
Proof.
  unfold string_to_number.
  destruct (skip_ws_sound s) as (w1 & Hw1 & Hs).
  destruct (is_nil (skip_ws s)) eqn:Hnil.
  { intros _. apply is_nil_true in Hnil. rewrite Hnil in Hs.
    exists w1, [], []. repeat split; [exact Hs|exact Hw1|now left|constructor]. }
  assert (Hrest : forall rest, is_nil (skip_ws rest) = true ->
                    StrWhiteSpace rest).
  { intros rest Hr. apply is_nil_true in Hr.
    destruct (skip_ws_sound rest) as (w2 & Hw2 & Heq).
    rewrite Hr, app_nil_r in Heq. now subst. }
  destruct (parse_non_decimal (skip_ws s)) as [[l rest]|] eqn:Hn.
  { destruct (is_nil (skip_ws rest)) eqn:Hr; [|discriminate]. intros _.
    apply parse_non_decimal_sound in Hn as (p & Hp & Ht).
    exists w1, p, rest. rewrite <- Ht.
    repeat split; [exact Hs|exact Hw1|right; now right|now apply Hrest]. }
  destruct (parse_decimal (skip_ws s)) as [[l rest]|] eqn:Hd; [|discriminate].
  destruct (is_nil (skip_ws rest)) eqn:Hr; [|discriminate]. intros _.
  apply parse_decimal_sound in Hd as (p & Hp & Ht).
  exists w1, p, rest. rewrite <- Ht.
  repeat split; [exact Hs|exact Hw1|right; now left|now apply Hrest].
Qed.

Lemma string_to_number_complete (s : list ascii) :
  StringNumericLiteral s -> isNaN (string_to_number s) = false.
Proof.
  intros (w1 & l & w2 & -> & Hw1 & Hl & Hw2).
  unfold string_to_number. rewrite skip_ws_space by exact Hw1.
  destruct Hl as [->|Hl].
  { cbn [app]. now rewrite skip_ws_all. }
  destruct (StrNumericLiteral_head l Hl) as (c & t & Hlt & Hc).
  assert (Hskip : skip_ws (l ++ w2) = l ++ w2)
    by (rewrite Hlt; cbn [app]; now apply skip_ws_literal).
  rewrite Hskip.
  assert (Hnil : is_nil (l ++ w2) = false) by now rewrite Hlt.
  rewrite Hnil.
  pose proof (StrWhiteSpace_boundary w2 Hw2) as Hb.
  destruct Hl as [Hd|Hn].
  - rewrite parse_non_decimal_decimal by assumption.
    destruct (parse_decimal_exact l w2 Hd Hb) as [v ->].
    rewrite skip_ws_all by exact Hw2. apply literal_value_not_nan.
  - destruct (parse_non_decimal_exact l w2 Hn Hb) as [v ->].
    rewrite skip_ws_all by exact Hw2. apply literal_value_not_nan.
Qed.

(** [Number] gives NaN on exactly the strings that are not numeric. *)
Lemma Number_NaN_iff (s : string) :
  isNaN (Number s) = true <-> ~ numeric_string s.
Proof.
  unfold Number, numeric_string. split.
  - intros Hnan Hnum. apply string_to_number_complete in Hnum. congruence.
  - intros Hnot. destruct (isNaN (string_to_number (chars s))) eqn:E;
      [reflexivity|]. now apply string_to_number_sound in E.
Qed.

(** [parseFloat] gives NaN on exactly the strings that do not start with
    a decimal literal. *)
Lemma parseFloat_NaN_iff (s : string) :
  isNaN (parseFloat s) = true <-> ~ starts_with_decimal s.
Proof.
  unfold parseFloat, starts_with_decimal. split.
  - intros Hnan (w & p & r & Hs & Hw & Hp).
    rewrite Hs, skip_ws_space in Hnan by exact Hw.
    destruct (StrDecimalLiteral_head p Hp) as (c & t & Hpt & Hc).
    assert (Hskip : skip_ws (p ++ r) = p ++ r)
      by (rewrite Hpt; cbn [app]; now apply skip_ws_literal).
    rewrite Hskip in Hnan.
    pose proof (parse_decimal_complete p r Hp) as Hsome.
    destruct (parse_decimal (p ++ r)) as [[l rest]|]; [|congruence].
    rewrite literal_value_not_nan in Hnan. discriminate.
  - intros Hnot.
    destruct (parse_decimal (skip_ws (chars s))) as [[l rest]|] eqn:Hd;
      [|reflexivity].
    exfalso. apply Hnot.
    apply parse_decimal_sound in Hd as (p & Hp & Ht).
    destruct (skip_ws_sound (chars s)) as (w & Hw & Hs).
    exists w, p, rest. rewrite <- Ht. auto.
Qed.

End ScanningFacts.

Section NumericSettings.
Context `{SdkTypes}.

(** C10 (as amended). Loading checks that the settings are present and
    that [COMMITMENT_LEVEL] is one of the three levels, nothing else: when
    that holds it returns the exports, without a log line or an exit,
    whatever [MAX_SELL_RETRIES] and [SELL_AFTER_GAIN_PERCENTAGE] are set to.
    [MAX_SELL_RETRIES] is [Number] of its setting, NaN exactly when the
    setting is not a numeric string; [SELL_AFTER_GAIN_PERCENTAGE] is
    [parseFloat] of its setting, NaN exactly when the setting does not start
    with a decimal literal. *)
Theorem numeric_settings_are_not_validated (process_env : ProcessEnv)
    (w : World) (level retries gain : string) :
  (forall name, In name required_settings -> is_Some (process_env !! name)) ->
  process_env !! "COMMITMENT_LEVEL" = Some level ->
  In level ["processed"; "confirmed"; "finalized"] ->
  process_env !! "MAX_SELL_RETRIES" = Some retries ->
  process_env !! "SELL_AFTER_GAIN_PERCENTAGE" = Some gain ->
  exists c,
    load_module process_env w = (Returned c, w)
    /\ MAX_SELL_RETRIES c = Number retries
    /\ SELL_AFTER_GAIN_PERCENTAGE c = parseFloat gain
    /\ (isNaN (MAX_SELL_RETRIES c) = true <-> ~ numeric_string retries)
    /\ (isNaN (SELL_AFTER_GAIN_PERCENTAGE c) = true
        <-> ~ starts_with_decimal gain).
Proof.
  intros Hall Hlevel Hin Hretries Hgain.
  assert (Hload : load_module process_env w
                  = load_settings process_env level w).
  { unfold load_module, load_commitment_level, mbind, proc_bind, bind.
    rewrite (retrieveEnvVariable_present _ _ _ _ Hlevel).
    apply (includes_In possibleCommitments) in Hin. now rewrite Hin. }
  destruct (load_settings_returns process_env level w Hall)
    as (c & Hc & _ & Hr & Hg).
  exists c. rewrite Hload.
  rewrite (Hr retries Hretries), (Hg gain Hgain).
  split; [exact Hc|]. split; [reflexivity|]. split; [reflexivity|].
  split; [apply Number_NaN_iff|apply parseFloat_NaN_iff].
Qed.

End NumericSettings.

(* ===================================================================== *)
(** * What the enrichment does to the outside world                       *)
(* ===================================================================== *)

Section EnrichmentTrace.
Context `{Sdk}.

Local Abbreviation answer_price answer :=
  (match answer with
   | Fulfilled resp =>
       if strict_eq_zero (usdPrice (raw resp)) then None
       else usdPrice (raw resp)
   | RejectedWith _ => None
   end).

(** One call of [fetchCoinPrice], with everything it leaves behind. *)
Lemma fetchCoinPrice_exact (mintAddress apiKey : string) (w : World) :
  fetchCoinPrice mintAddress apiKey w =
    (Returned (answer_price (fst (oracle_call mintAddress apiKey (env w)))),
     {| env := snd (oracle_call mintAddress apiKey (env w));
        trace := trace w ++ fetch_events mintAddress apiKey (env w) |}).
Proof.
  unfold fetchCoinPrice, fetch_events, oracle_requests, oracle_call,
    try_catch, mbind, proc_bind, bind, mret, proc_ret, ret, console_log,
    console_error, log_event, await, emit.
  cbn.
  destruct (Moralis_start apiKey (env w)) as [[u|e] e1]; cbn.
  - destruct (Moralis_SolApi_token_getTokenPrice "mainnet" mintAddress e1)
      as [[resp|e] e2]; cbn.
    + destruct (strict_eq_zero (usdPrice (raw resp))); cbn;
        rewrite <- ?app_assoc; reflexivity.
    + rewrite <- ?app_assoc; reflexivity.
  - rewrite <- ?app_assoc; reflexivity.
Qed.

(** The loop, with everything it leaves behind, however it ends. *)
Lemma for_of_value_exact (records : list KeyedAccount)
    (accounts : list TokenAccountWithAmountAndPrice) (w : World) :
  exists out,
    for_of_value records accounts w =
      (out,
       {| env := env_after records (env w);
          trace := trace w ++ loop_events records (env w) |}).
Proof.
  revert accounts w.
  induction records as [|r rest IH]; intros accounts w.
  - exists (Returned accounts). destruct w; cbn. now rewrite app_nil_r.
  - cbn [for_of_value env_after loop_events].
    unfold mbind, proc_bind, bind.
    fold (decode_record r).
    destruct (decode_record r) as [a|e]; cbn [call].
    + fold (mint_address a). rewrite fetchCoinPrice_exact.
      match goal with
      | |- context [for_of_value rest ?acc ?w1] =>
          destruct (IH acc w1) as [out Hrun]
      end.
      exists out. rewrite Hrun. cbn [env trace].
      now rewrite <- app_assoc.
    + exists (Thrown e). destruct w; cbn. now rewrite app_nil_r.
Qed.

(** [getTokenAccounts] on a ledger answer, with everything it leaves
    behind, however it ends. *)
Lemma getTokenAccounts_exact (connection : Connection) (owner : PublicKey)
    (commitment : option Commitment) (w : World)
    (resp : TokenAccountsResponse) (e0 : Env) :
  connection_getTokenAccountsByOwner connection owner TOKEN_PROGRAM_ID
    commitment (env w) = (Fulfilled resp, e0) ->
  exists out,
    getTokenAccounts connection owner commitment w =
      (out,
       {| env := env_after (value resp) e0;
          trace := trace w
                   ++ EvGetTokenAccountsByOwner owner TOKEN_PROGRAM_ID
                        commitment
                      :: loop_events (value resp) e0 |}).
Proof.
  intros Hledger.
  unfold getTokenAccounts, mbind, proc_bind, bind, await.
  rewrite Hledger.
  match goal with
  | |- context [for_of_value (value resp) [] ?w0] =>
      destruct (for_of_value_exact (value resp) [] w0) as [out Hrun]
  end.
  rewrite Hrun. cbn [env trace]. rewrite <- app_assoc. cbn [app].
  destruct out; eauto.
Qed.

Lemma oracle_requests_are_requests (mintAddress apiKey : string) (e : Env) :
  filter is_oracle_call (oracle_requests mintAddress apiKey e)
  = oracle_requests mintAddress apiKey e.
Proof.
  unfold oracle_requests.
  destruct (fst (Moralis_start apiKey e)); reflexivity.
Qed.

Lemma fetch_events_requests (mintAddress apiKey : string) (e : Env) :
  filter is_oracle_call (fetch_events mintAddress apiKey e)
  = oracle_requests mintAddress apiKey e.
Proof.
  unfold fetch_events.
  change (filter is_oracle_call (?x :: ?l)) with (filter is_oracle_call l).
  rewrite filter_app, oracle_requests_are_requests.
  match goal with
  | |- _ ++ filter _ ?tail = _ =>
      assert (Htail : filter is_oracle_call tail = [])
  end.
  { destruct (fst (oracle_call mintAddress apiKey e)) as [resp|err];
      [destruct (strict_eq_zero (usdPrice (raw resp)))|]; reflexivity. }
  rewrite Htail. apply app_nil_r.
Qed.

Lemma loop_events_requests (records : list KeyedAccount) (e : Env) :
  filter is_oracle_call (loop_events records e) = requests_for records e.
Proof.
  revert e. induction records as [|r rest IH]; intros e; [reflexivity|].
  cbn [loop_events requests_for].
  destruct (decode_record r) as [a|err]; [|reflexivity].
  now rewrite filter_app, fetch_events_requests, IH.
Qed.

Lemma fetch_events_one_start (mintAddress apiKey : string) (e : Env) :
  length (filter is_moralis_start (fetch_events mintAddress apiKey e)) = 1%nat.
Proof.
  unfold fetch_events, oracle_requests.
  destruct (fst (Moralis_start apiKey e));
    (destruct (fst (oracle_call mintAddress apiKey e)) as [resp|err];
     [destruct (strict_eq_zero (usdPrice (raw resp)))|]);
    reflexivity.
Qed.

Lemma fetch_events_one_price_request (mintAddress apiKey : string) (e : Env) :
  (length (filter is_get_token_price (fetch_events mintAddress apiKey e))
   <= 1)%nat.
Proof.
  unfold fetch_events, oracle_requests.
  destruct (fst (Moralis_start apiKey e));
    (destruct (fst (oracle_call mintAddress apiKey e)) as [resp|err];
     [destruct (strict_eq_zero (usdPrice (raw resp)))|]);
    apply Nat.leb_le; reflexivity.
Qed.

Lemma loop_events_starts (records : list KeyedAccount) (e : Env) :
  length (filter is_moralis_start (loop_events records e))
  = length (decoded_prefix records).
Proof.
  revert e. induction records as [|r rest IH]; intros e; [reflexivity|].
  cbn [loop_events decoded_prefix].
  destruct (decode_record r) as [a|err]; [|reflexivity].
  rewrite filter_app, length_app, IH, fetch_events_one_start. reflexivity.
Qed.

Lemma loop_events_price_requests (records : list KeyedAccount) (e : Env) :
  (length (filter is_get_token_price (loop_events records e))
   <= length (decoded_prefix records))%nat.
Proof.
  revert e. induction records as [|r rest IH]; intros e; [reflexivity|].
  cbn [loop_events decoded_prefix].
  destruct (decode_record r) as [a|err]; [|reflexivity].
  rewrite filter_app, length_app.
  specialize (IH (snd (oracle_call (mint_address a) MORALIS_API_KEY e))).
  pose proof (fetch_events_one_price_request (mint_address a)
                MORALIS_API_KEY e).
  cbn [length]. lia.
Qed.

(** X1. The oracle is asked record by record, in the ledger's order, up
    to the first record that cannot be decoded: for each record one
    [Moralis.start] with the API key, followed by one [getTokenPrice] on
    network [mainnet] for the record's mint when the start went through,
    and by nothing when it did not. Nothing is asked twice. *)
Theorem oracle_is_asked_record_by_record
    (connection : Connection) (owner : PublicKey)
    (commitment : option Commitment) (w : World)
    (resp : TokenAccountsResponse) (e0 : Env) :
  connection_getTokenAccountsByOwner connection owner TOKEN_PROGRAM_ID
    commitment (env w) = (Fulfilled resp, e0) ->
  exists out w',
    getTokenAccounts connection owner commitment w = (out, w')
    /\ filter is_oracle_call (trace w')
       = filter is_oracle_call (trace w) ++ requests_for (value resp) e0.
Proof.
  intros Hledger.
  destruct (getTokenAccounts_exact _ _ _ _ _ _ Hledger) as [out Hrun].
  eexists _, _. split; [exact Hrun|]. cbn [trace].
  rewrite filter_app.
  change (filter is_oracle_call (?x :: ?l)) with (filter is_oracle_call l).
  now rewrite loop_events_requests.
Qed.

(** X2. Pricing a ledger answer starts the oracle client once for every
    record before the first that cannot be decoded, and sends at most as
    many price requests: exactly k starts and at most k price requests
    when all k records decode, never more than k. *)
Theorem one_lookup_per_record
    (connection : Connection) (owner : PublicKey)
    (commitment : option Commitment) (w : World)
    (resp : TokenAccountsResponse) (e0 : Env) :
  connection_getTokenAccountsByOwner connection owner TOKEN_PROGRAM_ID
    commitment (env w) = (Fulfilled resp, e0) ->
  exists out w',
    getTokenAccounts connection owner commitment w = (out, w')
    /\ length (filter is_moralis_start (trace w'))
       = (length (filter is_moralis_start (trace w))
          + length (decoded_prefix (value resp)))%nat
    /\ (length (filter is_get_token_price (trace w'))
        <= length (filter is_get_token_price (trace w))
           + length (decoded_prefix (value resp)))%nat
    /\ (length (decoded_prefix (value resp)) <= length (value resp))%nat
    /\ (List.Forall decodes (value resp) ->
        decoded_prefix (value resp) = value resp).
Proof.
  intros Hledger.
  destruct (getTokenAccounts_exact _ _ _ _ _ _ Hledger) as [out Hrun].
  eexists _, _. split; [exact Hrun|]. cbn [trace].
  rewrite !filter_app, !length_app.
  change (filter is_moralis_start (?x :: ?l))
    with (filter is_moralis_start l).
  change (filter is_get_token_price (?x :: ?l))
    with (filter is_get_token_price l).
  rewrite loop_events_starts.
  pose proof (loop_events_price_requests (value resp) e0).
  split; [reflexivity|]. split; [lia|].
  split; [apply decoded_prefix_length|apply decoded_prefix_all].
Qed.

(** X3. Every call of [fetchCoinPrice] first writes a console line that
    carries the mint address and the API key, whatever the lookup gives. *)
Theorem fetchCoinPrice_logs_api_key (mintAddress apiKey : string)
    (w : World) :
  exists p w' rest,
    fetchCoinPrice mintAddress apiKey w = (Returned p, w')
    /\ trace w' =
         trace w
         ++ EvConsoleLog [LStr "Fetching real-time coin price:";
                          LStr mintAddress; LStr apiKey]
            :: EvMoralisStart apiKey :: rest.
Proof.
  rewrite fetchCoinPrice_exact. eexists _, _, _.
  split; [reflexivity|]. cbn [trace]. unfold fetch_events, oracle_requests.
  cbn [app]. reflexivity.
Qed.

(** X4. A price is never made up: [fetchCoinPrice] returns a number p
    exactly when the oracle call was fulfilled with [usdPrice] p and p is
    not zero, and a holding carries p only if the oracle answered p for
    the mint of that holding's record. *)
Theorem attached_price_is_the_oracle_price :
  (forall mintAddress apiKey w p,
      (exists w', fetchCoinPrice mintAddress apiKey w = (Returned (Some p), w'))
      <-> (exists resp,
             fst (oracle_call mintAddress apiKey (env w)) = Fulfilled resp
             /\ usdPrice (raw resp) = Some p
             /\ SFeqb p pos_zero = false))
  /\ (forall connection owner commitment w resp0 e0 pre r post hs w' h p,
        connection_getTokenAccountsByOwner connection owner TOKEN_PROGRAM_ID
          commitment (env w) = (Fulfilled resp0, e0) ->
        value resp0 = pre ++ r :: post ->
        getTokenAccounts connection owner commitment w = (Returned hs, w') ->
        hs !! length pre = Some h ->
        price h = Some p ->
        exists a resp,
          decode_record r = Completed a
          /\ fst (oracle_call (mint_address a) MORALIS_API_KEY
                    (env_after pre e0)) = Fulfilled resp
          /\ usdPrice (raw resp) = Some p
          /\ SFeqb p pos_zero = false).
Proof.
  assert (Hprice : forall (answer : Settled Err TokenPriceResponse)
                          (p : number),
            answer_price answer = Some p <->
            exists resp, answer = Fulfilled resp
                         /\ usdPrice (raw resp) = Some p
                         /\ SFeqb p pos_zero = false).
  { intros answer p. destruct answer as [resp|err].
    - destruct (strict_eq_zero (usdPrice (raw resp))) eqn:Hz.
      + split; [discriminate|]. intros (resp' & [= <-] & Hp & Hnz).
        rewrite Hp in Hz. cbn in Hz. congruence.
      + split.
        * intros Hp. exists resp. split; [reflexivity|]. split; [exact Hp|].
          rewrite Hp in Hz. exact Hz.
        * now intros (resp' & [= <-] & Hp & _).
    - split; [discriminate|]. now intros (resp' & Hr & _). }
  split.
  - intros mintAddress apiKey w p. rewrite fetchCoinPrice_exact.
    rewrite <- Hprice. split.
    + now intros (w' & [= -> _]).
    + intros ->. eauto.
  - intros connection owner commitment w resp0 e0 pre r post hs w' h p
      Hl Hval Hrun Hh Hp.
    destruct (getTokenAccounts_returned _ _ _ _ _ _ Hrun)
      as (resp1 & e1 & Hl1 & Hall).
    rewrite Hl in Hl1. injection Hl1 as <- <-.
    destruct (getTokenAccounts_run _ _ _ _ _ _ Hl Hall)
      as (hs0 & w0 & Hrun0 & _ & _ & Hnth).
    rewrite Hrun in Hrun0. injection Hrun0 as <- <-.
    assert (Hr : decodes r).
    { rewrite List.Forall_forall in Hall. apply Hall. rewrite Hval.
      apply in_elt. }
    destruct Hr as [a Ha].
    destruct (Hnth pre r post a Hval Ha) as (h0 & Hh0 & _ & Hp0).
    rewrite Hh in Hh0. injection Hh0 as <-.
    rewrite Hp in Hp0. symmetry in Hp0. apply Hprice in Hp0.
    destruct Hp0 as (resp & Hresp & Hu & Hnz). eauto 10.
Qed.

(** X5. A lookup that fails is reported once: when the oracle call rejects
    with a reason, the last thing [fetchCoinPrice] does is a
    [console.error] carrying that reason (and not the mint address); a
    lookup that is fulfilled writes no error line. *)
Theorem oracle_failure_is_logged (mintAddress apiKey : string) (w : World) :
  match fst (oracle_call mintAddress apiKey (env w)) with
  | RejectedWith err =>
      exists before,
        trace (snd (fetchCoinPrice mintAddress apiKey w)) =
          trace w ++ before
          ++ [EvConsoleError [LStr "Fetching real-time coin price:";
                              LErr err]]
        /\ filter is_console_error before = []
  | Fulfilled _ =>
      filter is_console_error
        (trace (snd (fetchCoinPrice mintAddress apiKey w)))
      = filter is_console_error (trace w)
  end.
Proof.
  rewrite fetchCoinPrice_exact. cbn [snd trace].
  unfold fetch_events, oracle_requests.
  destruct (fst (oracle_call mintAddress apiKey (env w))) as [resp|err].
  - rewrite filter_app.
    destruct (fst (Moralis_start apiKey (env w)));
      destruct (strict_eq_zero (usdPrice (raw resp)));
      cbn; apply app_nil_r.
  - eexists (_ :: _). split.
    + cbn [app]. rewrite app_comm_cons. reflexivity.
    + destruct (fst (Moralis_start apiKey (env w))); reflexivity.
Qed.

(** X6. When the ledger call rejects, nothing else happens: the rejection
    is thrown, the trace gains the ledger call only, so the oracle is not
    asked and nothing is written to the console. *)
Theorem ledger_failure_stops_everything
    (connection : Connection) (owner : PublicKey)
    (commitment : option Commitment) (w : World) (e : Err) (e0 : Env) :
  connection_getTokenAccountsByOwner connection owner TOKEN_PROGRAM_ID
    commitment (env w) = (RejectedWith e, e0) ->
  exists w',
    getTokenAccounts connection owner commitment w = (Thrown e, w')
    /\ env w' = e0
    /\ trace w' = trace w ++ [EvGetTokenAccountsByOwner owner
                                TOKEN_PROGRAM_ID commitment]
    /\ filter is_oracle_call (trace w') = filter is_oracle_call (trace w).
Proof.
  intros Hl. rewrite (getTokenAccounts_rejected _ _ _ _ _ _ Hl).
  eexists. split; [reflexivity|]. cbn.
  split; [reflexivity|]. split; [reflexivity|].
  rewrite filter_app. cbn. apply app_nil_r.
Qed.

End EnrichmentTrace.

(* ===================================================================== *)
(** * What loading the configuration can end in                           *)
(* ===================================================================== *)

Section LoadingOutcome.
Context `{SdkTypes}.

(** Every way [load_module] can end. *)
Lemma load_module_cases (process_env : ProcessEnv) (w : World) :
  match load_module process_env w with
  | (Returned c, w') =>
      w' = w
      /\ exists level rpc ws log renounced retries key mint amount
               minp maxp one gain,
          (process_env !! "COMMITMENT_LEVEL" = Some level
           /\ process_env !! "RPC_ENDPOINT" = Some rpc
           /\ process_env !! "RPC_WEBSOCKET_ENDPOINT" = Some ws
           /\ process_env !! "LOG_LEVEL" = Some log
           /\ process_env !! "CHECK_IF_MINT_IS_RENOUNCED" = Some renounced
           /\ process_env !! "MAX_SELL_RETRIES" = Some retries
           /\ process_env !! "PRIVATE_KEY" = Some key
           /\ process_env !! "QUOTE_MINT" = Some mint
           /\ process_env !! "QUOTE_AMOUNT" = Some amount
           /\ process_env !! "MIN_POOL_SIZE" = Some minp
           /\ process_env !! "MAX_POOL_SIZE" = Some maxp
           /\ process_env !! "ONE_TOKEN_AT_A_TIME" = Some one
           /\ process_env !! "SELL_AFTER_GAIN_PERCENTAGE" = Some gain)
          /\ includes possibleCommitments level = true
          /\ c = {| NETWORK := "mainnet-beta";
                    COMMITMENT_LEVEL := level;
                    RPC_ENDPOINT := rpc;
                    RPC_WEBSOCKET_ENDPOINT := ws;
                    LOG_LEVEL := log;
                    CHECK_IF_MINT_IS_RENOUNCED := String.eqb renounced "true";
                    MAX_SELL_RETRIES := Number retries;
                    PRIVATE_KEY := key;
                    QUOTE_MINT := mint;
                    QUOTE_AMOUNT := amount;
                    MIN_POOL_SIZE := minp;
                    MAX_POOL_SIZE := maxp;
                    ONE_TOKEN_AT_A_TIME := String.eqb one "true";
                    SELL_AFTER_GAIN_PERCENTAGE := parseFloat gain |}
  | (Exited _, w') =>
      env w' = env w
      /\ exists fields msg, trace w' = trace w ++ [EvLoggerError fields msg]
  | (Thrown _, _) => False
  end.
Proof.
  unfold load_module, load_commitment_level, load_settings,
    retrieveEnvVariable, mbind, proc_bind, bind, mret, proc_ret, ret,
    logger_error, log_event, process_exit, emit.
  destruct (process_env !! "COMMITMENT_LEVEL") as [level|] eqn:E0;
    [|split; [reflexivity|eexists _, _; reflexivity]].
  destruct (includes possibleCommitments level) eqn:Einc; cbn [negb];
    [|split; [reflexivity|eexists _, _; reflexivity]].
  repeat lazymatch goal with
  | |- context [match process_env !! ?n with Some _ => _ | None => _ end] =>
      destruct (process_env !! n) eqn:?;
      [|split; [reflexivity|eexists _, _; reflexivity]]
  end.
  split; [reflexivity|].
  eexists _, _, _, _, _, _, _, _, _, _, _, _, _.
  split; [repeat split|]. split; [exact Einc|reflexivity].
Qed.

(** X7. Loading never throws and has two ends. It returns only when all
    thirteen settings are present and [COMMITMENT_LEVEL] is one of the three
    levels, and then it has written nothing and changed nothing; otherwise
    the process exits after exactly one [logger.error] line. *)
Theorem load_module_outcome (process_env : ProcessEnv) (w : World) :
  match load_module process_env w with
  | (Returned c, w') =>
      w' = w
      /\ (forall name, In name required_settings ->
            is_Some (process_env !! name))
      /\ process_env !! "COMMITMENT_LEVEL" = Some (COMMITMENT_LEVEL c)
      /\ In (COMMITMENT_LEVEL c) ["processed"; "confirmed"; "finalized"]
  | (Exited _, w') =>
      env w' = env w
      /\ exists fields msg, trace w' = trace w ++ [EvLoggerError fields msg]
  | (Thrown _, _) => False
  end.
Proof.
  pose proof (load_module_cases process_env w) as Hcases.
  destruct (load_module process_env w) as [[c|e|code] w'];
    [|exact Hcases|exact Hcases].
  destruct Hcases as (-> & level & rpc & ws & log & renounced & retries & key
                      & mint & amount & minp & maxp & one & gain
                      & Hlook & Hinc & ->).
  split; [reflexivity|]. cbn [COMMITMENT_LEVEL].
  split; [|split; [apply Hlook|now apply (includes_In possibleCommitments)]].
  intros name Hin. cbn in Hin.
  repeat (destruct Hin as [<-|Hin];
          [eexists; first [apply Hlook|tauto]|]).
  contradiction.
Qed.

(** X8. The two switches are on only for the exact string [true]: any
    other value of the setting, [TRUE] or [1] or [ true] included, leaves
    the switch off. *)
Theorem switches_need_exact_true (process_env : ProcessEnv) (w w' : World)
    (c : Exports) :
  load_module process_env w = (Returned c, w') ->
  (CHECK_IF_MINT_IS_RENOUNCED c = true
   <-> process_env !! "CHECK_IF_MINT_IS_RENOUNCED" = Some "true")
  /\ (ONE_TOKEN_AT_A_TIME c = true
      <-> process_env !! "ONE_TOKEN_AT_A_TIME" = Some "true").
Proof.
  intros Hrun. pose proof (load_module_cases process_env w) as Hcases.
  rewrite Hrun in Hcases.
  destruct Hcases as (_ & level & rpc & ws & log & renounced & retries & key
                      & mint & amount & minp & maxp & one & gain
                      & Hlook & _ & ->).
  destruct Hlook as (_ & _ & _ & _ & Hr & _ & _ & _ & _ & _ & _ & Ho & _).
  cbn [CHECK_IF_MINT_IS_RENOUNCED ONE_TOKEN_AT_A_TIME].
  rewrite Hr, Ho, !String.eqb_eq. split; split; congruence.
Qed.

End LoadingOutcome.

(* ===================================================================== *)
(** * How the numeric settings are read                                   *)
(* ===================================================================== *)

Section ReadingNumbers.

(** A literal without sign, fraction or exponent is its integer. *)
Lemma round_mv_integer (n : N) : round_mv false n 0 = of_Z (Z.of_N n).
Proof.
  destruct n as [|p]; [reflexivity|].
  unfold round_mv, of_Z. cbn [Z.leb Z.compare cond_Zopp Z.of_N].
  change (10 ^ 0)%Z with 1%Z. now rewrite Z.mul_1_r.
Qed.

Lemma DecimalDigits_literal (ds : list ascii) :
  DecimalDigits ds -> StrDecimalLiteral ds.
Proof.
  intros Hds. rewrite <- (app_nil_r ds).
  apply (SDL_intro [] (ds ++ [])); [now left|].
  apply SUDL_int; [exact Hds|now left].
Qed.

Lemma skip_ws_decimal (p r : list ascii) :
  StrDecimalLiteral p -> skip_ws (p ++ r) = p ++ r.
Proof.
  intros Hp. destruct (StrDecimalLiteral_head p Hp) as (c & t & -> & Hc).
  cbn [app]. now apply skip_ws_literal.
Qed.

(** A string of digits is read by [parse_decimal] as the integer the
    digits denote. *)
Lemma parse_decimal_digits (ds : list ascii) :
  DecimalDigits ds ->
  parse_decimal ds = Some (LDecimal false (digits_value 10 ds) 0, []).
Proof.
  intros Hds. destruct (Digits_head _ _ Hds) as (d & t & Hdt & Hd).
  unfold parse_decimal.
  assert (Hsign : parse_sign ds = (false, ds))
    by (rewrite Hdt; apply parse_sign_other; now apply digit_char).
  rewrite Hsign. unfold parse_unsigned_decimal.
  assert (Hinf : strip_prefix Infinity_chars ds = None)
    by (rewrite Hdt; apply strip_Infinity_other; now apply digit_char).
  rewrite Hinf.
  rewrite <- (app_nil_r ds) at 1.
  rewrite (span_app is_digit ds []); [|apply Hds|exact I].
  destruct Hds as [Hne _]. apply is_nil_false in Hne. now rewrite Hne.
Qed.

Lemma Number_digits (s : string) :
  DecimalDigits (chars s) ->
  Number s = of_Z (Z.of_N (digits_value 10 (chars s))).
Proof.
  intros Hds. unfold Number, string_to_number.
  pose proof (DecimalDigits_literal _ Hds) as Hlit.
  pose proof (skip_ws_decimal (chars s) [] Hlit) as Hskip.
  pose proof (parse_non_decimal_decimal (chars s) [] Hlit I) as Hnon.
  rewrite app_nil_r in Hskip, Hnon. rewrite Hskip, Hnon.
  destruct Hds as [Hne Hall].
  apply is_nil_false in Hne. rewrite Hne.
  rewrite (parse_decimal_digits (chars s));
    [|split; [now apply is_nil_false|exact Hall]].
  cbn [skip_ws is_nil literal_value]. apply round_mv_integer.
Qed.

Lemma parseFloat_digits (s : string) :
  DecimalDigits (chars s) ->
  parseFloat s = of_Z (Z.of_N (digits_value 10 (chars s))).
Proof.
  intros Hds. unfold parseFloat.
  pose proof (skip_ws_decimal (chars s) [] (DecimalDigits_literal _ Hds))
    as Hskip.
  rewrite app_nil_r in Hskip. rewrite Hskip.
  rewrite (parse_decimal_digits (chars s) Hds).
  apply round_mv_integer.
Qed.

(** X10. On a decimal literal with optional white space around it,
    [Number] (which reads [MAX_SELL_RETRIES]) and [parseFloat] (which reads
    [SELL_AFTER_GAIN_PERCENTAGE]) give the same number, and it is not
    NaN. *)
Theorem Number_and_parseFloat_agree_on_decimals (s : string)
    (w1 p w2 : list ascii) :
  chars s = w1 ++ p ++ w2 ->
  StrWhiteSpace w1 -> StrDecimalLiteral p -> StrWhiteSpace w2 ->
  parseFloat s = Number s /\ isNaN (Number s) = false.
Proof.
  intros Hs Hw1 Hp Hw2.
  pose proof (StrWhiteSpace_boundary w2 Hw2) as Hb.
  destruct (parse_decimal_exact p w2 Hp Hb) as [l Hl].
  assert (Hskip : skip_ws (chars s) = p ++ w2).
  { rewrite Hs, skip_ws_space by exact Hw1. now apply skip_ws_decimal. }
  assert (Hnil : is_nil (p ++ w2) = false).
  { destruct (StrDecimalLiteral_head p Hp) as (c & t & -> & _).
    reflexivity. }
  assert (HN : Number s = literal_value l).
  { unfold Number, string_to_number. rewrite Hskip, Hnil.
    rewrite parse_non_decimal_decimal by assumption.
    rewrite Hl. now rewrite skip_ws_all. }
  assert (HP : parseFloat s = literal_value l).
  { unfold parseFloat. now rewrite Hskip, Hl. }
  rewrite HN, HP. split; [reflexivity|apply literal_value_not_nan].
Qed.

Lemma blank_readings (s : string) :
  StrWhiteSpace (chars s) -> Number s = pos_zero /\ parseFloat s = NaN.
Proof.
  intros Hw. unfold Number, string_to_number, parseFloat.
  rewrite skip_ws_all by exact Hw. split; reflexivity.
Qed.

End ReadingNumbers.

Section NumericSettingsRead.
Context `{SdkTypes}.

(** What the two numeric exports are made of. *)
Lemma numeric_exports (process_env : ProcessEnv) (w w' : World)
    (c : Exports) :
  load_module process_env w = (Returned c, w') ->
  (forall v, process_env !! "MAX_SELL_RETRIES" = Some v ->
     MAX_SELL_RETRIES c = Number v)
  /\ (forall v, process_env !! "SELL_AFTER_GAIN_PERCENTAGE" = Some v ->
        SELL_AFTER_GAIN_PERCENTAGE c = parseFloat v).
Proof.
  intros Hrun. pose proof (load_module_cases process_env w) as Hcases.
  rewrite Hrun in Hcases.
  destruct Hcases as (_ & level & rpc & ws & log & renounced & retries & key
                      & mint & amount & minp & maxp & one & gain
                      & Hlook & _ & ->).
  destruct Hlook as (_ & _ & _ & _ & _ & Hr & _ & _ & _ & _ & _ & _ & Hg).
  cbn [MAX_SELL_RETRIES SELL_AFTER_GAIN_PERCENTAGE].
  split; intros v Hv; congruence.
Qed.

(** X9. A numeric setting written with decimal digits only is exported
    as the integer the digits denote, for [MAX_SELL_RETRIES] and for
    [SELL_AFTER_GAIN_PERCENTAGE] alike. *)
Theorem digit_settings_are_integers (process_env : ProcessEnv)
    (w w' : World) (c : Exports) :
  load_module process_env w = (Returned c, w') ->
  (forall v, process_env !! "MAX_SELL_RETRIES" = Some v ->
     DecimalDigits (chars v) ->
     MAX_SELL_RETRIES c = of_Z (Z.of_N (digits_value 10 (chars v))))
  /\ (forall v, process_env !! "SELL_AFTER_GAIN_PERCENTAGE" = Some v ->
        DecimalDigits (chars v) ->
        SELL_AFTER_GAIN_PERCENTAGE c
        = of_Z (Z.of_N (digits_value 10 (chars v)))).
Proof.
  intros Hrun. destruct (numeric_exports _ _ _ _ Hrun) as [Hr Hg].
  split; intros v Hv Hds.
  - rewrite (Hr v Hv). now apply Number_digits.
  - rewrite (Hg v Hv). now apply parseFloat_digits.
Qed.

(** X11. A numeric setting that holds white space only is not rejected:
    [MAX_SELL_RETRIES] becomes 0 and [SELL_AFTER_GAIN_PERCENTAGE] becomes
    NaN. *)
Theorem blank_numeric_settings (process_env : ProcessEnv)
    (w w' : World) (c : Exports) :
  load_module process_env w = (Returned c, w') ->
  (forall v, process_env !! "MAX_SELL_RETRIES" = Some v ->
     StrWhiteSpace (chars v) -> MAX_SELL_RETRIES c = pos_zero)
  /\ (forall v, process_env !! "SELL_AFTER_GAIN_PERCENTAGE" = Some v ->
        StrWhiteSpace (chars v) -> SELL_AFTER_GAIN_PERCENTAGE c = NaN).
Proof.
  intros Hrun. destruct (numeric_exports _ _ _ _ Hrun) as [Hr Hg].
  split; intros v Hv Hw.
  - rewrite (Hr v Hv). now apply blank_readings.
  - rewrite (Hg v Hv). now apply blank_readings.
Qed.

End NumericSettingsRead.

(* ===================================================================== *)
(** * The statements on the concrete outside world                        *)
(* ===================================================================== *)

Import Scenario.


(** The records of Alice and of Bob all decode. *)
Lemma alice_accounts_decode : List.Forall decodes alice_accounts.
Proof. repeat constructor; eexists; reflexivity. Qed.

Lemma bob_accounts_decode : List.Forall decodes bob_accounts.
Proof. repeat constructor; eexists; reflexivity. Qed.

(** Alice's two accounts give two holdings, in the ledger's order. *)
Lemma getTokenAccounts_one_holding_per_record_witness :
  @connection_getTokenAccountsByOwner types sdk tt "alice" TOKEN_PROGRAM_ID
    None (env start) = (Fulfilled {| value := alice_accounts |}, 1%nat)
  /\ List.Forall decodes alice_accounts
  /\ exists hs w',
       getTokenAccounts tt "alice" None start = (Returned hs, w')
       /\ length hs = length alice_accounts
       /\ Forall2 holding_of alice_accounts hs
       /\ map pubkey hs = map ka_pubkey alice_accounts.
Proof.
  split; [reflexivity|]. split; [exact alice_accounts_decode|].
  apply (proj1 (@getTokenAccounts_one_holding_per_record types sdk tt "alice"
                  None start {| value := alice_accounts |} 1%nat eq_refl)).
  exact alice_accounts_decode.
Defined.

(** C1 as stated fails: the ledger answers Carol's wallet with two records,
    the second cut short; the decode of line 81 throws and no holding is
    returned. *)
Lemma truncated_record_breaks_the_listing :
  @connection_getTokenAccountsByOwner types sdk tt "carol" TOKEN_PROGRAM_ID
    None (env start) = (Fulfilled {| value := carol_accounts |}, 1%nat)
  /\ length carol_accounts = 2%nat
  /\ fst (getTokenAccounts tt "carol" None start)
     = Thrown "RangeError: offset is out of range"
  /\ forall hs, fst (getTokenAccounts tt "carol" None start) <> Returned hs.
Proof.
  split; [reflexivity|]. split; [reflexivity|].
  split; [vm_compute; reflexivity|].
  intros hs. vm_compute. discriminate.
Qed.

(** The oracle times out on mint [B]: Alice's second holding has no price
    and the call returns. *)
Lemma oracle_failure_is_swallowed_witness :
  (oracle_call "B" "key" (env start) = (RejectedWith "timeout", 2%nat)
   /\ exists w', fetchCoinPrice "B" "key" start = (Returned None, w'))
  /\ (@connection_getTokenAccountsByOwner types sdk tt "alice"
        TOKEN_PROGRAM_ID None (env start)
      = (Fulfilled {| value := alice_accounts |}, 1%nat)
      /\ List.Forall decodes alice_accounts
      /\ value {| value := alice_accounts |}
         = [token_account "acct1" "A" 1000]
             ++ token_account "acct2" "B" 500 :: []
      /\ decode_record (token_account "acct2" "B" 500)
         = Completed ("B", 500%N)
      /\ oracle_call (mint_address ("B", 500%N)) MORALIS_API_KEY
           (env_after [token_account "acct1" "A" 1000] 1%nat)
         = (RejectedWith "timeout", 5%nat)
      /\ exists hs w' h,
           getTokenAccounts tt "alice" None start = (Returned hs, w')
           /\ hs !! length [token_account "acct1" "A" 1000] = Some h
           /\ holding_of (token_account "acct2" "B" 500) h
           /\ price h = None).
Proof.
  destruct (@oracle_failure_is_swallowed types sdk)
    as (Hfetch & _ & _ & Hholding).
  split.
  - split; [reflexivity|].
    apply (Hfetch "B" "key" start "timeout" 2%nat). reflexivity.
  - split; [reflexivity|]. split; [exact alice_accounts_decode|].
    split; [reflexivity|]. split; [reflexivity|]. split; [reflexivity|].
    apply (Hholding tt "alice" None start {| value := alice_accounts |}
             1%nat [token_account "acct1" "A" 1000]
             (token_account "acct2" "B" 500) [] ("B", 500%N) "timeout"
             5%nat);
      first [reflexivity|exact alice_accounts_decode].
Defined.

(** C2 as stated fails: the ledger call for Dave's wallet is fulfilled and
    no oracle call is made, let alone fails, yet the call as a whole fails:
    the one record is cut short and its decode throws. *)
Lemma call_fails_though_the_ledger_answered :
  @connection_getTokenAccountsByOwner types sdk tt "dave" TOKEN_PROGRAM_ID
    None (env start) = (Fulfilled {| value := dave_accounts |}, 1%nat)
  /\ getTokenAccounts tt "dave" None start
     = (Thrown "RangeError: offset is out of range",
        {| env := 1%nat;
           trace := [EvGetTokenAccountsByOwner "dave" TOKEN_PROGRAM_ID
                       None] |}).
Proof. split; [reflexivity|vm_compute; reflexivity]. Qed.

(** C3 as stated fails: the oracle answers -1 for mint [C], and Bob's first
    holding carries that price, which is below zero. *)
Lemma negative_price_is_attached :
  exists hs w' h p,
    getTokenAccounts tt "bob" None start = (Returned hs, w')
    /\ In h hs
    /\ price h = Some p
    /\ p = of_Z (-1)
    /\ gt_zero p = false
    /\ SFltb p pos_zero = true.
Proof.
  eexists _, _, _, _. split; [vm_compute; reflexivity|].
  split; [left; reflexivity|]. cbn [price].
  split; [reflexivity|]. split; [reflexivity|].
  split; reflexivity.
Qed.

(** Bob's first holding obeys the amended statement: the oracle answered
    -1, which is not zero, and the holding carries -1. *)
Lemma price_is_absent_or_nonzero_witness :
  (exists hs w' h,
     getTokenAccounts tt "bob" None start = (Returned hs, w')
     /\ In h hs
     /\ (price h = None
         \/ exists p, price h = Some p /\ SFeqb p pos_zero = false))
  /\ (@connection_getTokenAccountsByOwner types sdk tt "bob"
        TOKEN_PROGRAM_ID None (env start)
      = (Fulfilled {| value := bob_accounts |}, 1%nat)
      /\ List.Forall decodes bob_accounts
      /\ value {| value := bob_accounts |}
         = [] ++ token_account "acct3" "C" 7 :: [token_account "acct4" "Z" 1]
      /\ decode_record (token_account "acct3" "C" 7) = Completed ("C", 7%N)
      /\ oracle_call (mint_address ("C", 7%N)) MORALIS_API_KEY
           (env_after [] 1%nat)
         = (Fulfilled (quote (Some (of_Z (-1)))), 3%nat)
      /\ SFeqb (of_Z (-1)) pos_zero = false
      /\ exists hs w' h,
           getTokenAccounts tt "bob" None start = (Returned hs, w')
           /\ hs !! length (@nil KeyedAccount) = Some h
           /\ holding_of (token_account "acct3" "C" 7) h
           /\ price h = Some (of_Z (-1))).
Proof.
  destruct (@price_is_absent_or_nonzero types sdk) as (Hany & Hkept).
  split.
  - eexists _, _, _.
    split; [vm_compute; reflexivity|].
    split; [left; reflexivity|].
    eapply (Hany tt "bob" None start);
      [vm_compute; reflexivity|left; reflexivity].
  - split; [reflexivity|]. split; [exact bob_accounts_decode|].
    split; [reflexivity|]. split; [reflexivity|]. split; [reflexivity|].
    split; [reflexivity|].
    apply (Hkept tt "bob" None start {| value := bob_accounts |} 1%nat
             [] (token_account "acct3" "C" 7) [token_account "acct4" "Z" 1]
             ("C", 7%N) (quote (Some (of_Z (-1)))) 3%nat (of_Z (-1)));
      first [reflexivity|exact bob_accounts_decode].
Defined.

(** The oracle answers 0 for mint [Z]: Bob's second holding has no price. *)
Lemma zero_price_is_absent_witness :
  (oracle_call "Z" "key" (env start)
   = (Fulfilled (quote (Some pos_zero)), 2%nat)
   /\ usdPrice (raw (quote (Some pos_zero))) = Some (S754_zero false)
   /\ exists w', fetchCoinPrice "Z" "key" start = (Returned None, w'))
  /\ (@connection_getTokenAccountsByOwner types sdk tt "bob"
        TOKEN_PROGRAM_ID None (env start)
      = (Fulfilled {| value := bob_accounts |}, 1%nat)
      /\ List.Forall decodes bob_accounts
      /\ value {| value := bob_accounts |}
         = [token_account "acct3" "C" 7]
             ++ token_account "acct4" "Z" 1 :: []
      /\ decode_record (token_account "acct4" "Z" 1) = Completed ("Z", 1%N)
      /\ oracle_call (mint_address ("Z", 1%N)) MORALIS_API_KEY
           (env_after [token_account "acct3" "C" 7] 1%nat)
         = (Fulfilled (quote (Some pos_zero)), 5%nat)
      /\ exists hs w' h,
           getTokenAccounts tt "bob" None start = (Returned hs, w')
           /\ hs !! length [token_account "acct3" "C" 7] = Some h
           /\ holding_of (token_account "acct4" "Z" 1) h
           /\ price h = None).
Proof.
  destruct (@zero_price_is_absent types sdk) as (Hfetch & Hholding).
  split.
  - split; [reflexivity|]. split; [reflexivity|].
    apply (Hfetch "Z" "key" start (quote (Some pos_zero)) 2%nat false);
      reflexivity.
  - split; [reflexivity|]. split; [exact bob_accounts_decode|].
    split; [reflexivity|]. split; [reflexivity|]. split; [reflexivity|].
    apply (Hholding tt "bob" None start {| value := bob_accounts |} 1%nat
             [token_account "acct3" "C" 7] (token_account "acct4" "Z" 1) []
             ("Z", 1%N) (quote (Some pos_zero)) 5%nat false);
      first [reflexivity|exact bob_accounts_decode].
Defined.

(** The oracle answers 0.05 for mint [A]: Alice's first holding carries
    exactly that number. *)
Lemma positive_price_is_kept_witness :
  (oracle_call "A" "key" (env start)
   = (Fulfilled (quote (Some (Number "0.05"))), 2%nat)
   /\ gt_zero (Number "0.05") = true
   /\ exists w',
        fetchCoinPrice "A" "key" start
        = (Returned (Some (Number "0.05")), w'))
  /\ (@connection_getTokenAccountsByOwner types sdk tt "alice"
        TOKEN_PROGRAM_ID None (env start)
      = (Fulfilled {| value := alice_accounts |}, 1%nat)
      /\ List.Forall decodes alice_accounts
      /\ value {| value := alice_accounts |}
         = [] ++ token_account "acct1" "A" 1000
              :: [token_account "acct2" "B" 500]
      /\ decode_record (token_account "acct1" "A" 1000)
         = Completed ("A", 1000%N)
      /\ exists hs w' h,
           getTokenAccounts tt "alice" None start = (Returned hs, w')
           /\ hs !! length (@nil KeyedAccount) = Some h
           /\ holding_of (token_account "acct1" "A" 1000) h
           /\ price h = Some (Number "0.05")).
Proof.
  destruct (@positive_price_is_kept types sdk) as (Hfetch & Hholding).
  split.
  - split; [reflexivity|]. split; [reflexivity|].
    apply (Hfetch "A" "key" start (quote (Some (Number "0.05"))) 2%nat
             (Number "0.05")); reflexivity.
  - split; [reflexivity|]. split; [exact alice_accounts_decode|].
    split; [reflexivity|]. split; [reflexivity|].
    apply (Hholding tt "alice" None start {| value := alice_accounts |} 1%nat
             [] (token_account "acct1" "A" 1000)
             [token_account "acct2" "B" 500] ("A", 1000%N)
             (quote (Some (Number "0.05"))) 3%nat (Number "0.05"));
      first [reflexivity|exact alice_accounts_decode].
Defined.

(** A wallet without token accounts: an empty list and no oracle request. *)
Lemma no_accounts_no_oracle_calls_witness :
  @connection_getTokenAccountsByOwner types sdk tt "nobody" TOKEN_PROGRAM_ID
    None (env start) = (Fulfilled {| value := [] |}, 1%nat)
  /\ value {| value := [] |} = []
  /\ exists w',
       getTokenAccounts tt "nobody" None start = (Returned [], w')
       /\ env w' = 1%nat
       /\ trace w' = trace start
                     ++ [EvGetTokenAccountsByOwner "nobody" TOKEN_PROGRAM_ID
                           None]
       /\ filter is_oracle_call (trace w')
          = filter is_oracle_call (trace start).
Proof.
  split; [reflexivity|]. split; [reflexivity|].
  apply (@no_accounts_no_oracle_calls types sdk tt "nobody" None start
           {| value := [] |} 1%nat); reflexivity.
Defined.

(** C7 as stated fails: a pool state whose [baseDecimal] is 2^53 is an
    input, and [createPoolKeys] has no output on it: [toNumber()] of line
    36 throws. *)
Lemma createPoolKeys_throws_on_wide_decimals :
  BN_toNumber (st_baseDecimal (pool_state (2 ^ 53)))
  = Threw "Number can only safely store up to 53 bits"
  /\ createPoolKeys "pool" (pool_state (2 ^ 53)) market_layout start
     = (Thrown "Number can only safely store up to 53 bits", start)
  /\ forall keys w',
       createPoolKeys "pool" (pool_state (2 ^ 53)) market_layout start
       <> (Returned keys, w').
Proof.
  split; [reflexivity|]. split; [vm_compute; reflexivity|].
  intros keys w'. vm_compute. discriminate.
Qed.

(** A pool with 6 base decimals: the four calls complete, a bundle comes
    back and the world is as before. *)
Lemma createPoolKeys_copies_fields_witness :
  (exists bd qd la ma,
     BN_toNumber (st_baseDecimal (pool_state 6)) = Completed bd
     /\ BN_toNumber (st_quoteDecimal (pool_state 6)) = Completed qd
     /\ Liquidity_getAssociatedAuthority MAINNET_PROGRAM_ID_AmmV4
        = Completed la
     /\ Market_getAssociatedAuthority (st_marketProgramId (pool_state 6))
          (st_marketId (pool_state 6)) = Completed ma)
  /\ exists keys,
       createPoolKeys "pool" (pool_state 6) market_layout start
       = (Returned keys, start)
       /\ id keys = "pool"
       /\ baseMint keys = "baseMint"
       /\ lpDecimals keys = of_Z 5
       /\ programId keys = MAINNET_PROGRAM_ID_AmmV4.
Proof.
  destruct (@createPoolKeys_copies_fields types sdk "pool" (pool_state 6)
              market_layout start) as (_ & Hiff & _ & Hfields).
  assert (Hcalls : exists bd qd la ma,
     BN_toNumber (st_baseDecimal (pool_state 6)) = Completed bd
     /\ BN_toNumber (st_quoteDecimal (pool_state 6)) = Completed qd
     /\ Liquidity_getAssociatedAuthority MAINNET_PROGRAM_ID_AmmV4
        = Completed la
     /\ Market_getAssociatedAuthority (st_marketProgramId (pool_state 6))
          (st_marketId (pool_state 6)) = Completed ma)
    by (eexists _, _, _, _; repeat split; reflexivity).
  split; [exact Hcalls|].
  destruct (proj2 Hiff Hcalls) as [keys Hrun].
  exists keys. split; [exact Hrun|].
  destruct (Hfields keys start Hrun)
    as ((Hid & Hbase & _) & (Hlp & _ & _ & Hprog)).
  auto.
Defined.

(** The same pool with another market layout: the three market fields
    follow the layout, the rest stays. *)
Lemma createPoolKeys_market_fields_witness :
  exists keys,
    createPoolKeys "pool" (pool_state 6) market_layout start
    = (Returned keys, start)
    /\ marketBaseVault keys = "baseVault"
    /\ marketQuoteVault keys = "quoteVault"
    /\ marketBids keys = "bids"
    /\ exists keys',
         createPoolKeys "pool" (pool_state 6) other_layout start
         = (Returned keys', start)
         /\ marketBids keys' = "bids2"
         /\ marketAsks keys' = "asks2"
         /\ marketEventQueue keys' = "eventQueue2"
         /\ baseVault keys' = baseVault keys
         /\ marketAuthority keys' = marketAuthority keys.
Proof.
  eexists. split; [vm_compute; reflexivity|].
  match goal with
  | |- marketBaseVault ?k = _ /\ _ =>
      destruct (@createPoolKeys_market_fields types sdk "pool" (pool_state 6)
                  market_layout start start k)
        as ((Hbase & Hquote) & (Hbids & _) & Hother);
      [vm_compute; reflexivity|]
  end.
  split; [exact Hbase|]. split; [exact Hquote|]. split; [exact Hbids|].
  eexists. split; [exact (Hother other_layout)|].
  repeat split.
Defined.

(** [COMMITMENT_LEVEL=urgent] ends the process with exit code 1 before
    anything else runs; [COMMITMENT_LEVEL=finalized] loads. *)
Lemma invalid_commitment_level_exits_witness :
  (urgent_env !! "COMMITMENT_LEVEL" = Some "urgent"
   /\ ~ In "urgent" ["processed"; "confirmed"; "finalized"]
   /\ exists w',
        load_module urgent_env start = (Exited 1, w')
        /\ (forall (A : Type) (after : Exports -> Proc A),
              (load_module urgent_env ≫= after) start = (Exited 1, w'))
        /\ (exists msg,
              trace w' = trace start
                         ++ [EvLoggerError [("COMMITMENT_LEVEL", "urgent")]
                               msg])
        /\ env w' = env start
        /\ filter is_ledger_call (trace w')
           = filter is_ledger_call (trace start)
        /\ filter is_oracle_call (trace w')
           = filter is_oracle_call (trace start))
  /\ (full_env !! "COMMITMENT_LEVEL" = Some "finalized"
      /\ In "finalized" ["processed"; "confirmed"; "finalized"]
      /\ load_module full_env start = load_settings full_env "finalized" start).
Proof.
  split.
  - split; [reflexivity|].
    assert (Hout : ~ In "urgent" ["processed"; "confirmed"; "finalized"])
      by (cbn; intros [Hx|[Hx|[Hx|[]]]]; discriminate Hx).
    split; [exact Hout|].
    apply (@invalid_commitment_level_exits types urgent_env "urgent" start
             eq_refl).
    exact Hout.
  - split; [reflexivity|].
    assert (Hin : In "finalized" ["processed"; "confirmed"; "finalized"])
      by (cbn; auto).
    split; [exact Hin|].
    apply (@invalid_commitment_level_exits types full_env "finalized" start
             eq_refl).
    exact Hin.
Defined.

(** C10 as stated fails: [SELL_AFTER_GAIN_PERCENTAGE=5%] is present and is
    not a numeric string, loading completes, and the constant is the number
    5, not NaN. *)
Lemma percent_sign_gain_is_five :
  full_env !! "SELL_AFTER_GAIN_PERCENTAGE" = Some "5%"
  /\ ~ numeric_string "5%"
  /\ exists c,
       load_module full_env start = (Returned c, start)
       /\ SELL_AFTER_GAIN_PERCENTAGE c = of_Z 5
       /\ isNaN (SELL_AFTER_GAIN_PERCENTAGE c) = false.
Proof.
  split; [reflexivity|].
  split; [apply Number_NaN_iff; reflexivity|].
  eexists. split; [vm_compute; reflexivity|].
  split; reflexivity.
Qed.

(** With [MAX_SELL_RETRIES=many] and [SELL_AFTER_GAIN_PERCENTAGE=5%]
    loading completes; the retry count is NaN and the gain is not. *)
Lemma numeric_settings_are_not_validated_witness :
  (forall name, In name required_settings -> is_Some (sloppy_env !! name))
  /\ sloppy_env !! "COMMITMENT_LEVEL" = Some "finalized"
  /\ In "finalized" ["processed"; "confirmed"; "finalized"]
  /\ sloppy_env !! "MAX_SELL_RETRIES" = Some "many"
  /\ sloppy_env !! "SELL_AFTER_GAIN_PERCENTAGE" = Some "5%"
  /\ exists c,
       load_module sloppy_env start = (Returned c, start)
       /\ MAX_SELL_RETRIES c = Number "many"
       /\ SELL_AFTER_GAIN_PERCENTAGE c = parseFloat "5%"
       /\ (isNaN (MAX_SELL_RETRIES c) = true <-> ~ numeric_string "many")
       /\ (isNaN (SELL_AFTER_GAIN_PERCENTAGE c) = true
           <-> ~ starts_with_decimal "5%").
Proof.
  assert (Hall : forall name, In name required_settings ->
                   is_Some (sloppy_env !! name)).
  { intros name Hin. cbn in Hin.
    repeat (destruct Hin as [<-|Hin]; [eexists; reflexivity|]).
    contradiction. }
  assert (Hin : In "finalized" ["processed"; "confirmed"; "finalized"])
    by (cbn; auto).
  split; [exact Hall|]. split; [reflexivity|]. split; [exact Hin|].
  split; [reflexivity|]. split; [reflexivity|].
  exact (@numeric_settings_are_not_validated types sloppy_env start
           "finalized" "many" "5%" Hall eq_refl Hin eq_refl eq_refl).
Defined.

(** ** The scenarios of the specification, and a few conversions *)

(** Owner with mints [A] (amount 1000, oracle answers 0.05) and [B] (amount
    500, oracle times out). *)
Example two_accounts_one_timeout :
  fst (getTokenAccounts tt "alice" None start) =
    Returned
      [ {| pubkey := "acct1"; ta_programId := "TokenkegQ";
           accountInfo := ("A", 1000%N); price := Some (Number "0.05");
           amount := 1000%N |};
        {| pubkey := "acct2"; ta_programId := "TokenkegQ";
           accountInfo := ("B", 500%N); price := None;
           amount := 500%N |} ].
Proof. vm_compute. reflexivity. Qed.

(** Every holding costs one [Moralis.start] and one [getTokenPrice], in
    the order of the records. *)
Example oracle_requests_in_order :
  filter is_oracle_call (trace (snd (getTokenAccounts tt "alice" None start)))
  = [EvMoralisStart "key"; EvGetTokenPrice "mainnet" "A";
     EvMoralisStart "key"; EvGetTokenPrice "mainnet" "B"].
Proof. vm_compute. reflexivity. Qed.

Example decode_failure_is_thrown :
  fst (getTokenAccounts tt "carol" None start)
  = Thrown "RangeError: offset is out of range".
Proof. vm_compute. reflexivity. Qed.

Example ledger_failure_is_thrown :
  fst (getTokenAccounts tt "mallory" None start) = Thrown "ledger unavailable".
Proof. vm_compute. reflexivity. Qed.

Example missing_setting_exits :
  load_module (delete "LOG_LEVEL" full_env) start =
    (Exited 1,
     {| env := 0%nat; trace := [EvLoggerError [] "LOG_LEVEL is not set"] |}).
Proof. vm_compute. reflexivity. Qed.

Example Number_tenth :
  Number "0.1" = S754_finite false 7205759403792794 (-56).
Proof. vm_compute. reflexivity. Qed.

Example Number_rounds_to_even :
  Number "9007199254740993" = S754_finite false 4503599627370496 1.
Proof. vm_compute. reflexivity. Qed.

Example Number_overflow : Number "1.7976931348623159e308" = S754_infinity false.
Proof. vm_compute. reflexivity. Qed.

Example Number_smallest : Number "5e-324" = S754_finite false 1 (-1074).
Proof. vm_compute. reflexivity. Qed.

Example Number_hex : Number " 0x1F " = of_Z 31.
Proof. vm_compute. reflexivity. Qed.

Example Number_blank : Number "  " = pos_zero.
Proof. vm_compute. reflexivity. Qed.

Example Number_trailing_garbage : Number "12abc" = NaN.
Proof. vm_compute. reflexivity. Qed.

Example parseFloat_trailing_garbage : parseFloat "12abc" = of_Z 12.
Proof. vm_compute. reflexivity. Qed.

Example parseFloat_blank : parseFloat "" = NaN.
Proof. vm_compute. reflexivity. Qed.

Example parseFloat_negative_infinity :
  parseFloat "  -Infinity and beyond" = S754_infinity true.
Proof. vm_compute. reflexivity. Qed.

(** ** Further statements on the concrete outside world *)

(** Alice's two accounts: the oracle client is started and asked for [A],
    then started and asked for [B]. Carol's second record is cut short:
    only [A] is asked for. *)
Lemma oracle_is_asked_record_by_record_witness :
  (@connection_getTokenAccountsByOwner types sdk tt "alice" TOKEN_PROGRAM_ID
     None (env start) = (Fulfilled {| value := alice_accounts |}, 1%nat)
   /\ requests_for alice_accounts 1%nat
      = [EvMoralisStart "key"; EvGetTokenPrice "mainnet" "A";
         EvMoralisStart "key"; EvGetTokenPrice "mainnet" "B"]
   /\ exists out w',
        getTokenAccounts tt "alice" None start = (out, w')
        /\ filter is_oracle_call (trace w')
           = filter is_oracle_call (trace start)
             ++ requests_for alice_accounts 1%nat)
  /\ (@connection_getTokenAccountsByOwner types sdk tt "carol"
        TOKEN_PROGRAM_ID None (env start)
      = (Fulfilled {| value := carol_accounts |}, 1%nat)
      /\ requests_for carol_accounts 1%nat
         = [EvMoralisStart "key"; EvGetTokenPrice "mainnet" "A"]
      /\ exists out w',
           getTokenAccounts tt "carol" None start = (out, w')
           /\ filter is_oracle_call (trace w')
              = filter is_oracle_call (trace start)
                ++ requests_for carol_accounts 1%nat).
Proof.
  split.
  - split; [reflexivity|]. split; [reflexivity|].
    apply (@oracle_is_asked_record_by_record types sdk tt "alice" None start
             {| value := alice_accounts |} 1%nat).
    reflexivity.
  - split; [reflexivity|]. split; [reflexivity|].
    apply (@oracle_is_asked_record_by_record types sdk tt "carol" None start
             {| value := carol_accounts |} 1%nat).
    reflexivity.
Defined.

Lemma one_lookup_per_record_witness :
  @connection_getTokenAccountsByOwner types sdk tt "bob" TOKEN_PROGRAM_ID
    None (env start) = (Fulfilled {| value := bob_accounts |}, 1%nat)
  /\ exists out w',
       getTokenAccounts tt "bob" None start = (out, w')
       /\ length (filter is_moralis_start (trace w'))
          = (length (filter is_moralis_start (trace start))
             + length (decoded_prefix bob_accounts))%nat
       /\ (length (filter is_get_token_price (trace w'))
           <= length (filter is_get_token_price (trace start))
              + length (decoded_prefix bob_accounts))%nat
       /\ (length (decoded_prefix bob_accounts) <= length bob_accounts)%nat
       /\ (List.Forall decodes bob_accounts ->
           decoded_prefix bob_accounts = bob_accounts).
Proof.
  split; [reflexivity|].
  apply (@one_lookup_per_record types sdk tt "bob" None start
           {| value := bob_accounts |} 1%nat).
  reflexivity.
Defined.

(** The price 0.05 on Alice's first holding is what the oracle answered
    for mint [A]. *)
Lemma attached_price_is_the_oracle_price_witness :
  exists hs w' h,
    getTokenAccounts tt "alice" None start = (Returned hs, w')
    /\ hs !! 0%nat = Some h
    /\ price h = Some (Number "0.05")
    /\ exists a resp,
         decode_record (token_account "acct1" "A" 1000) = Completed a
         /\ fst (oracle_call (mint_address a) MORALIS_API_KEY
                   (env_after [] 1%nat)) = Fulfilled resp
         /\ usdPrice (raw resp) = Some (Number "0.05")
         /\ SFeqb (Number "0.05") pos_zero = false.
Proof.
  eexists _, _, _.
  split; [vm_compute; reflexivity|].
  split; [reflexivity|]. split; [reflexivity|].
  eapply (proj2 (@attached_price_is_the_oracle_price types sdk)
            tt "alice" None start {| value := alice_accounts |} 1%nat
            [] (token_account "acct1" "A" 1000)
            [token_account "acct2" "B" 500]).
  - reflexivity.
  - reflexivity.
  - vm_compute. reflexivity.
  - reflexivity.
  - reflexivity.
Defined.

(** A wallet the ledger fails on: the failure is thrown and the oracle is
    left alone. *)
Lemma ledger_failure_stops_everything_witness :
  @connection_getTokenAccountsByOwner types sdk tt "mallory" TOKEN_PROGRAM_ID
    None (env start) = (RejectedWith "ledger unavailable", 1%nat)
  /\ exists w',
       getTokenAccounts tt "mallory" None start
       = (Thrown "ledger unavailable", w')
       /\ env w' = 1%nat
       /\ trace w' = trace start
                     ++ [EvGetTokenAccountsByOwner "mallory" TOKEN_PROGRAM_ID
                           None]
       /\ filter is_oracle_call (trace w')
          = filter is_oracle_call (trace start).
Proof.
  split; [reflexivity|].
  apply (@ledger_failure_stops_everything types sdk tt "mallory" None start
           "ledger unavailable" 1%nat).
  reflexivity.
Defined.

(** With [CHECK_IF_MINT_IS_RENOUNCED=true] and [ONE_TOKEN_AT_A_TIME=false]
    the first switch is on and the second is off. *)
Lemma switches_need_exact_true_witness :
  exists c w',
    load_module full_env start = (Returned c, w')
    /\ CHECK_IF_MINT_IS_RENOUNCED c = true
    /\ ONE_TOKEN_AT_A_TIME c = false
    /\ (CHECK_IF_MINT_IS_RENOUNCED c = true
        <-> full_env !! "CHECK_IF_MINT_IS_RENOUNCED" = Some "true")
    /\ (ONE_TOKEN_AT_A_TIME c = true
        <-> full_env !! "ONE_TOKEN_AT_A_TIME" = Some "true").
Proof.
  eexists _, _.
  split; [vm_compute; reflexivity|].
  split; [reflexivity|]. split; [reflexivity|].
  eapply (@switches_need_exact_true types full_env start).
  vm_compute. reflexivity.
Defined.

(** [MAX_SELL_RETRIES=5] and [SELL_AFTER_GAIN_PERCENTAGE=25] are exported
    as 5 and 25. *)
Lemma digit_settings_are_integers_witness :
  exists c w',
    load_module tidy_env start = (Returned c, w')
    /\ tidy_env !! "MAX_SELL_RETRIES" = Some "5"
    /\ DecimalDigits (chars "5")
    /\ MAX_SELL_RETRIES c = of_Z 5
    /\ tidy_env !! "SELL_AFTER_GAIN_PERCENTAGE" = Some "25"
    /\ DecimalDigits (chars "25")
    /\ SELL_AFTER_GAIN_PERCENTAGE c = of_Z 25.
Proof.
  assert (H5 : DecimalDigits (chars "5"))
    by (split; [discriminate|repeat constructor]).
  assert (H25 : DecimalDigits (chars "25"))
    by (split; [discriminate|repeat constructor]).
  destruct (load_module tidy_env start) as [out w'] eqn:Hrun.
  assert (Hout : exists c, out = Returned c)
    by (vm_compute in Hrun; injection Hrun as <- _; eauto).
  destruct Hout as [c ->].
  destruct (@digit_settings_are_integers types tidy_env start w' c Hrun)
    as [Hr Hg].
  exists c, w'. split; [reflexivity|].
  split; [reflexivity|]. split; [exact H5|].
  split; [exact (Hr "5" eq_refl H5)|].
  split; [reflexivity|]. split; [exact H25|].
  exact (Hg "25" eq_refl H25).
Defined.

(** [" 12.5 "] is read as the same number by both conversions. *)
Lemma Number_and_parseFloat_agree_on_decimals_witness :
  chars " 12.5 " = [" "%char] ++ chars "12.5" ++ [" "%char]
  /\ StrWhiteSpace [" "%char]
  /\ StrDecimalLiteral (chars "12.5")
  /\ parseFloat " 12.5 " = Number " 12.5 "
  /\ isNaN (Number " 12.5 ") = false.
Proof.
  assert (Hw : StrWhiteSpace [" "%char])
    by (apply (SWS_more [" "%char] []); [reflexivity|constructor]).
  assert (Hp : StrDecimalLiteral (chars "12.5")).
  { apply (SDL_intro [] (chars "12.5")); [now left|].
    apply (SUDL_int_dot ["1"%char; "2"%char] ["5"%char] []).
    - split; [discriminate|repeat constructor].
    - right. split; [discriminate|repeat constructor].
    - now left. }
  split; [reflexivity|]. split; [exact Hw|]. split; [exact Hp|].
  exact (Number_and_parseFloat_agree_on_decimals " 12.5 "
           [" "%char] (chars "12.5") [" "%char] eq_refl Hw Hp Hw).
Defined.

(** Both numeric settings left as one space: loading completes, the retry
    count is 0 and the gain is NaN. *)
Lemma blank_numeric_settings_witness :
  exists c w',
    load_module blank_env start = (Returned c, w')
    /\ blank_env !! "MAX_SELL_RETRIES" = Some " "
    /\ blank_env !! "SELL_AFTER_GAIN_PERCENTAGE" = Some " "
    /\ StrWhiteSpace (chars " ")
    /\ MAX_SELL_RETRIES c = pos_zero
    /\ SELL_AFTER_GAIN_PERCENTAGE c = NaN.
Proof.
  assert (Hw : StrWhiteSpace (chars " "))
    by (apply (SWS_more [" "%char] []); [reflexivity|constructor]).
  destruct (load_module blank_env start) as [out w'] eqn:Hrun.
  assert (Hout : exists c, out = Returned c)
    by (vm_compute in Hrun; injection Hrun as <- _; eauto).
  destruct Hout as [c ->].
  destruct (@blank_numeric_settings types blank_env start w' c Hrun)
    as [Hr Hg].
  exists c, w'. split; [reflexivity|].
  split; [reflexivity|]. split; [reflexivity|]. split; [exact Hw|].
  split; [exact (Hr " " eq_refl Hw)|exact (Hg " " eq_refl Hw)].
Defined.


